(** * Little Lemon menu: the grouping, filtering and selection pipeline of App.tsx

    A shallow embedding of the data pipeline of [src/App.tsx]: the bundled
    menu, [getSectionListData], the derivation of the initial category
    selection, [toggleCategory], the filter effect and [initializeApp].

    JavaScript values are modelled as follows.
    - Strings are Rocq strings; titles and search text are taken over the
      ASCII range, where [String.prototype.toLowerCase] changes exactly the
      letters A to Z.
    - A plain object used as a dictionary keeps its own properties and
      inherits from [Object.prototype]: a read [o[k]] of a key that is not an
      own property finds the inherited member when [k] names one.
    - [Object.entries] lists own properties in the order of
      OrdinaryOwnPropertyKeys: array-index keys in ascending numeric order,
      then the other string keys in order of creation.
    - A thrown exception (or a rejected awaited promise) is the [Throw] case
      of [JSResult].
    - [console.error] calls are not modelled. *)

From Stdlib Require Import String Ascii List NArith Bool Lia Sorted Permutation.
From stdpp Require Import gmap strings list fin_maps.

(** ** Strings *)

(** [c.toLowerCase()] on one ASCII character. *)
Definition lower_char (c : ascii) : ascii :=
  let n := N_of_ascii c in
  if ((65 <=? n) && (n <=? 90))%N then ascii_of_N (n + 32) else c.

(** [s.toLowerCase()] on a string of ASCII characters (see [ascii_only]);
    properties about the search are stated for such strings. *)
Fixpoint toLowerCase (s : string) : string :=
  match s with
  | EmptyString => EmptyString
  | String c r => String (lower_char c) (toLowerCase r)
  end.

(** [s.startsWith(p)]: the helper of [includes]. *)
Fixpoint startsWith (s p : string) {struct p} : bool :=
  match p, s with
  | EmptyString, _ => true
  | String _ _, EmptyString => false
  | String a p', String b s' => if Ascii.eqb a b then startsWith s' p' else false
  end.

(** [s.includes(sub)]: [sub] occurs in [s] at some position. *)
Fixpoint includes (s sub : string) : bool :=
  startsWith s sub ||
  match s with
  | EmptyString => false
  | String _ s' => includes s' sub
  end.

(** ** Errors *)

Inductive JSError :=
| TypeError        (* raised by the engine: calling [undefined] *)
| Rejected.        (* an awaited provider call that failed *)

Inductive JSResult (A : Type) :=
| Ok (a : A)
| Throw (e : JSError).
Arguments Ok {A} a.
Arguments Throw {A} e.

(** ** Data model *)

(** [interface MenuItem]; the field [id] is called [item_id] here. *)
Record MenuItem := mkMenuItem {
  item_id : string;
  title : string;
  price : string;
  category : string
}.

(** [interface SectionData]: fields [title] and [data]. *)
Record SectionData := mkSection {
  sec_title : string;
  sec_data : list MenuItem
}.

Definition MENU_ITEMS : list MenuItem :=
  [ mkMenuItem "1" "Spinach Artichoke Dip" "10.99" "Appetizers";
    mkMenuItem "2" "Hummus" "8.99" "Appetizers";
    mkMenuItem "3" "Fried Calamari Rings" "12.99" "Appetizers";
    mkMenuItem "4" "Fried Mushroom" "9.99" "Appetizers";
    mkMenuItem "5" "Greek Salad" "9.99" "Salads";
    mkMenuItem "6" "Caesar Salad" "8.99" "Salads";
    mkMenuItem "7" "Tuna Salad" "11.99" "Salads";
    mkMenuItem "8" "Grilled Chicken Salad" "12.99" "Salads";
    mkMenuItem "9" "Water" "1.99" "Beverages";
    mkMenuItem "10" "Coke" "2.99" "Beverages";
    mkMenuItem "11" "Beer" "5.99" "Beverages";
    mkMenuItem "12" "Ice Tea" "3.99" "Beverages" ].

(** ** Plain objects used as dictionaries *)

(** The property names every plain object inherits from [Object.prototype].
    Each of them reads as a function (or, for [__proto__], as the prototype
    object itself): a truthy value that is neither an array nor a boolean. *)
Definition ObjectPrototype_keys : list string :=
  [ "constructor"; "hasOwnProperty"; "isPrototypeOf"; "propertyIsEnumerable";
    "toLocaleString"; "toString"; "valueOf"; "__proto__";
    "__defineGetter__"; "__defineSetter__"; "__lookupGetter__";
    "__lookupSetter__" ].

Definition inherited (k : string) : bool :=
  existsb (String.eqb k) ObjectPrototype_keys.

(** The result of reading [o[k]]. *)
Inductive Property (A : Type) :=
| Undefined              (* no own property, nothing inherited *)
| Own (v : A)            (* an own property *)
| Inherited.             (* a member of [Object.prototype] *)
Arguments Undefined {A}.
Arguments Own {A} v.
Arguments Inherited {A}.

(** Decimal value of a string of digits. *)
Definition digit (c : ascii) : option N :=
  let n := N_of_ascii c in
  if ((48 <=? n) && (n <=? 57))%N then Some (n - 48)%N else None.

Fixpoint digits (s : string) (acc : N) : option N :=
  match s with
  | EmptyString => Some acc
  | String c r =>
      match digit c with
      | Some d => digits r (10 * acc + d)%N
      | None => None
      end
  end.

(** [k] is an array index: a canonical numeric string (no sign, no leading
    zero) whose value is at most 2^32 - 2. *)
Definition array_index (k : string) : option N :=
  match k with
  | EmptyString => None
  | String c r =>
      if Ascii.eqb c "0" then
        match r with EmptyString => Some 0%N | _ => None end
      else
        match digits k 0 with
        | Some n => if (n <? 2 ^ 32 - 1)%N then Some n else None
        | None => None
        end
  end.

Definition is_index (k : string) : bool :=
  match array_index k with Some _ => true | None => false end.

(** The accumulator of [getSectionListData], a [Record<string, MenuItem[]>]:
    its own properties in order of creation. *)
Definition Buckets := list (string * list MenuItem).

Fixpoint own (o : Buckets) (k : string) : option (list MenuItem) :=
  match o with
  | [] => None
  | (k', v) :: r => if String.eqb k k' then Some v else own r k
  end.

(** [acc[k]]. *)
Definition get (o : Buckets) (k : string) : Property (list MenuItem) :=
  match own o k with
  | Some v => Own v
  | None => if inherited k then Inherited else Undefined
  end.

(** Arrays, functions and objects are truthy; [undefined] is not. *)
Definition truthy_bucket (p : Property (list MenuItem)) : bool :=
  match p with
  | Undefined => false
  | Own _ | Inherited => true
  end.

(** Writing the own property [k]: an existing property keeps its place, a
    new one is created last.  [getSectionListData] writes only keys that are
    own already or that read as [undefined], for which assignment is exactly
    this. *)
Fixpoint put (o : Buckets) (k : string) (v : list MenuItem) : Buckets :=
  match o with
  | [] => [(k, v)]
  | (k', v') :: r => if String.eqb k k' then (k', v) :: r else (k', v') :: put r k v
  end.

(** Insertion of an entry among entries sorted by array index. *)
Fixpoint insert_index {A : Type} (n : N) (e : A) (l : list (N * A)) : list (N * A) :=
  match l with
  | [] => [(n, e)]
  | (m, e') :: r => if (n <=? m)%N then (n, e) :: (m, e') :: r else (m, e') :: insert_index n e r
  end.

Fixpoint sort_index {A : Type} (l : list (N * A)) : list (N * A) :=
  match l with
  | [] => []
  | (n, e) :: r => insert_index n e (sort_index r)
  end.

(** The own properties whose key is an array index, tagged with the index. *)
Fixpoint index_entries (o : Buckets) : list (N * (string * list MenuItem)) :=
  match o with
  | [] => []
  | (k, v) :: r =>
      match array_index k with
      | Some n => (n, (k, v)) :: index_entries r
      | None => index_entries r
      end
  end.

Definition string_entries (o : Buckets) : Buckets :=
  List.filter (fun e => negb (is_index (fst e))) o.

(** [Object.entries(o)]. *)
Definition Object_entries (o : Buckets) : Buckets :=
  map snd (sort_index (index_entries o)) ++ string_entries o.

(** ** getSectionListData *)

(** The callback of [data.reduce]. *)
Definition reducer (acc : Buckets) (item : MenuItem) : JSResult Buckets :=
  let acc1 :=
    if truthy_bucket (get acc (category item)) then acc
    else put acc (category item) [] in
  match get acc1 (category item) with
  | Own bucket => Ok (put acc1 (category item) (bucket ++ [item]))
  | Undefined | Inherited => Throw TypeError      (* [push] is not a function *)
  end.

(** [data.reduce(callback, acc)]. *)
Fixpoint reduce (data : list MenuItem) (acc : Buckets) : JSResult Buckets :=
  match data with
  | [] => Ok acc
  | item :: rest =>
      match reducer acc item with
      | Ok acc' => reduce rest acc'
      | Throw e => Throw e
      end
  end.

Definition to_section (e : string * list MenuItem) : SectionData :=
  mkSection (fst e) (snd e).

Definition getSectionListData (data : list MenuItem) : JSResult (list SectionData) :=
  match reduce data [] with
  | Ok groupedData => Ok (map to_section (Object_entries groupedData))
  | Throw e => Throw e
  end.

(** [sections.flatten()]: the items of all sections, in order. *)
Definition flatten (sections : list SectionData) : list MenuItem :=
  concat (map sec_data sections).

(** ** The category selection, a [Record<string, boolean>] *)

(** [o[k]] on a selection object: own properties are the entries of the map. *)
Definition read (o : gmap string bool) (k : string) : Property bool :=
  match o !! k with
  | Some b => Own b
  | None => if inherited k then Inherited else Undefined
  end.

Definition ToBoolean (p : Property bool) : bool :=
  match p with
  | Undefined => false
  | Own b => b
  | Inherited => true
  end.

(** [o[k] = v].  An own property is overwritten.  Otherwise the prototype
    chain decides: [__proto__] is an accessor whose setter ignores a boolean,
    every other inherited member is a writable data property, so the
    assignment creates an own property. *)
Definition assign (o : gmap string bool) (k : string) (v : bool) : gmap string bool :=
  match o !! k with
  | Some _ => <[k := v]> o
  | None => if String.eqb k "__proto__" then o else <[k := v]> o
  end.

(** [new Set(...)]: [add] appends a value that is not yet a member. *)
Definition Set_add (s : list string) (c : string) : list string :=
  if existsb (String.eqb c) s then s else s ++ [c].

(** [[...new Set(l)]]. *)
Definition Set_of (l : list string) : list string :=
  fold_left Set_add l [].

Definition uniqueCategories (items : list MenuItem) : list string :=
  Set_of (map category items).

(** [initialCategories] after the [forEach]. *)
Definition initialCategories (uniqueCategories : list string) : gmap string bool :=
  fold_left (fun o c => assign o c true) uniqueCategories ∅.

(** The selection derived from a loaded item list. *)
Definition deriveInitial (items : list MenuItem) : gmap string bool :=
  initialCategories (uniqueCategories items).

(** The updater of [toggleCategory]: [{...prev, [category]: !prev[category]}].
    A computed key of an object literal always defines an own property. *)
Definition toggle (prev : gmap string bool) (category : string) : gmap string bool :=
  <[category := negb (ToBoolean (read prev category))]> prev.

(** ** The filter predicate *)

Definition matchesSearch (searchText : string) (item : MenuItem) : bool :=
  includes (toLowerCase (title item)) (toLowerCase searchText).

Definition categoryIsSelected (selectedCategories : gmap string bool)
    (item : MenuItem) : Property bool :=
  read selectedCategories (category item).

(** The callback of [allItems.filter]: the value of
    [matchesSearch && categoryIsSelected], coerced to a boolean. *)
Definition keep (searchText : string) (selectedCategories : gmap string bool)
    (item : MenuItem) : bool :=
  matchesSearch searchText item &&
  ToBoolean (categoryIsSelected selectedCategories item).

(** ** Component state and effects *)

Record AppState := mkAppState {
  searchText : string;
  data : list SectionData;
  filteredData : list SectionData;
  selectedCategories : gmap string bool;
  categories : list string;
  isLoading : bool
}.

(** The [useState] defaults. *)
Definition initialState : AppState :=
  mkAppState EmptyString [] [] ∅ [] true.

(** The outcome of each awaited call to [./database] and [./api], at the
    point where App.tsx makes it. *)
Record Providers := mkProviders {
  createTable : JSResult unit;
  fetchData : JSResult (list MenuItem);
  saveMenuItems : list MenuItem -> JSResult unit;
  getMenuItems : JSResult (list MenuItem)
}.

(** Code that updates the component state and may throw. *)
Definition App (A : Type) : Type := AppState -> JSResult A * AppState.

#[global] Instance App_ret : MRet App := fun A a st => (Ok a, st).

#[global] Instance App_bind : MBind App := fun A B f m st =>
  match m st with
  | (Ok a, st') => f a st'
  | (Throw e, st') => (Throw e, st')
  end.

Definition lift {A : Type} (r : JSResult A) : App A := fun st => (r, st).

Definition try_catch {A : Type} (body : App A) (handler : JSError -> App A) : App A :=
  fun st =>
    match body st with
    | (Ok a, st') => (Ok a, st')
    | (Throw e, st') => handler e st'
    end.

Definition finally {A : Type} (body : App A) (cleanup : App unit) : App A :=
  fun st =>
    let '(r, st') := body st in
    match cleanup st' with
    | (Ok _, st'') => (r, st'')
    | (Throw e, st'') => (Throw e, st'')
    end.

Definition setSearchText (v : string) : App unit := fun st =>
  (Ok tt, mkAppState v (data st) (filteredData st) (selectedCategories st)
            (categories st) (isLoading st)).

Definition setData (v : list SectionData) : App unit := fun st =>
  (Ok tt, mkAppState (searchText st) v (filteredData st) (selectedCategories st)
            (categories st) (isLoading st)).

Definition setFilteredData (v : list SectionData) : App unit := fun st =>
  (Ok tt, mkAppState (searchText st) (data st) v (selectedCategories st)
            (categories st) (isLoading st)).

Definition setSelectedCategories (v : gmap string bool) : App unit := fun st =>
  (Ok tt, mkAppState (searchText st) (data st) (filteredData st) v
            (categories st) (isLoading st)).

Definition setCategories (v : list string) : App unit := fun st =>
  (Ok tt, mkAppState (searchText st) (data st) (filteredData st)
            (selectedCategories st) v (isLoading st)).

Definition setIsLoading (v : bool) : App unit := fun st =>
  (Ok tt, mkAppState (searchText st) (data st) (filteredData st)
            (selectedCategories st) (categories st) v).

(** The body shared by the [try] and the [catch] of [initializeApp]: derive
    the categories and the selection, then group and publish. *)
Definition publish (items : list MenuItem) : App unit :=
  setCategories (uniqueCategories items) ;;
  setSelectedCategories (initialCategories (uniqueCategories items)) ;;
  sectionListData ← lift (getSectionListData items) ;
  setData sectionListData ;;
  setFilteredData sectionListData.

Definition initializeApp (P : Providers) : App unit :=
  finally
    (try_catch
       (setIsLoading true ;;
        lift (createTable P) ;;
        try_catch
          (menuItems ← lift (fetchData P) ;
           lift (saveMenuItems P menuItems))
          (fun apiError => mret tt) ;;
        items ← lift (getMenuItems P) ;
        publish items)
       (fun error => publish MENU_ITEMS))
    (setIsLoading false).

(** The asynchronous [filterData] of the second effect, for the search text
    and selection captured by the render that scheduled it. *)
Definition filterData (P : Providers) (searchText : string)
    (selectedCategories : gmap string bool) : App unit :=
  try_catch
    (allItems ← lift (getMenuItems P) ;
     filteredSections ←
       lift (getSectionListData
               (List.filter (keep searchText selectedCategories) allItems)) ;
     setFilteredData filteredSections)
    (fun error =>
       filteredSections ←
         lift (getSectionListData
                 (List.filter (keep searchText selectedCategories) MENU_ITEMS)) ;
       setFilteredData filteredSections).

(** The effect on [[searchText, selectedCategories, data]]. *)
Definition filterEffect (P : Providers) : App unit := fun st =>
  match data st with
  | [] => (Ok tt, st)                      (* [if (!data.length) return] *)
  | _ :: _ => filterData P (searchText st) (selectedCategories st) st
  end.

Definition toggleCategory (category : string) : App unit := fun st =>
  setSelectedCategories (toggle (selectedCategories st) category) st.

(** ** The component as a transition system

    Every effect runs to completion before the next event is handled, and
    every read of the store after start-up returns the same outcome
    [getMenuItems P]. *)

Definition exec (m : App unit) (st : AppState) : AppState := snd (m st).

(** Mounting: both effects run on the initial render, and the filter effect
    runs again once [initializeApp] has replaced [data]. *)
Definition mount (P : Providers) : AppState :=
  exec (filterEffect P) (exec (initializeApp P) (exec (filterEffect P) initialState)).

Inductive Event :=
| ChangeText (text : string)          (* [onChangeText] of the search bar *)
| PressCategory (category : string).  (* [onPress] of a category button *)

(** One event and the re-render it causes.  Setting the search text to its
    current value changes no dependency, so the effect is not scheduled. *)
Definition step (P : Providers) (st : AppState) (ev : Event) : AppState :=
  match ev with
  | ChangeText text =>
      if String.eqb text (searchText st) then st
      else exec (filterEffect P) (exec (setSearchText text) st)
  | PressCategory c => exec (filterEffect P) (exec (toggleCategory c) st)
  end.

Inductive reachable (P : Providers) : AppState -> Prop :=
| reachable_mount : reachable P (mount P)
| reachable_step st ev : reachable P st -> reachable P (step P st ev).

(** The published view as a function of the stored catalog, the search text
    and the selection. *)
Definition fallbackView (searchText : string) (selectedCategories : gmap string bool)
    : list SectionData :=
  match getSectionListData
          (List.filter (keep searchText selectedCategories) MENU_ITEMS) with
  | Ok sections => sections
  | Throw _ => []
  end.

Definition FilteredView (catalog : JSResult (list MenuItem)) (searchText : string)
    (selectedCategories : gmap string bool) : list SectionData :=
  match catalog with
  | Ok allItems =>
      match getSectionListData
              (List.filter (keep searchText selectedCategories) allItems) with
      | Ok sections => sections
      | Throw _ => fallbackView searchText selectedCategories
      end
  | Throw _ => fallbackView searchText selectedCategories
  end.

(** ** Notions the properties are stated with *)

(** The distinct values of a list, in order of first occurrence. *)
Fixpoint first_occurrences (l : list string) : list string :=
  match l with
  | [] => []
  | c :: r => c :: List.filter (fun k => negb (String.eqb k c)) (first_occurrences r)
  end.

Definition in_category (k : string) (item : MenuItem) : bool :=
  String.eqb (category item) k.

(** One bucket per category, in order of first occurrence, each holding the
    items of the category in input order. *)
Definition grouped (l : list MenuItem) : Buckets :=
  map (fun k => (k, List.filter (in_category k) l))
      (first_occurrences (map category l)).

(** Some substring of [title] equals [searchText] up to letter case. *)
Definition titleContains (title searchText : string) : Prop :=
  exists pre mid post,
    title = pre +:+ mid +:+ post /\ toLowerCase mid = toLowerCase searchText.

(** Ascending array indices. *)
Definition index_le (a b : string) : Prop :=
  match array_index a, array_index b with
  | Some n, Some m => (n <= m)%N
  | _, _ => False
  end.

(** Buckets as grouping produces them: distinct keys, and every bucket is
    non-empty and holds items of its own category only. *)
Definition well_grouped (o : Buckets) : Prop :=
  List.NoDup (map fst o) /\
  forall k v, In (k, v) o -> v <> [] /\ forall i, In i v -> category i = k.

(** An entry tagged with the array index of its key. *)
Definition tagged (e : N * (string * list MenuItem)) : Prop :=
  array_index (fst (snd e)) = Some (fst e).

Definition tag_le {A : Type} (a b : N * A) : Prop := (fst a <= fst b)%N.

(** The catalog that [initializeApp] publishes: the stored items when every
    step of the [try] block succeeds, the bundled list otherwise. *)
Definition resolve (P : Providers) : list MenuItem :=
  match createTable P, getMenuItems P with
  | Ok _, Ok items =>
      match getSectionListData items with
      | Ok _ => items
      | Throw _ => MENU_ITEMS
      end
  | _, _ => MENU_ITEMS
  end.

(** The state [initializeApp] leaves behind for a catalog and its sections. *)
Definition loaded (st : AppState) (items : list MenuItem)
    (sections : list SectionData) : AppState :=
  mkAppState (searchText st) sections sections (deriveInitial items)
             (uniqueCategories items) false.

(** Every character of [s] is an ASCII character (code below 128).  On
    such strings [String.prototype.toLowerCase] is [toLowerCase]: it maps the
    letters A to Z to a to z, keeps every other character and keeps the
    length. *)
Fixpoint ascii_only (s : string) : bool :=
  match s with
  | EmptyString => true
  | String c r => (N_of_ascii c <? 128)%N && ascii_only r
  end.

(** An upper-case ASCII letter. *)
Definition is_upper (c : ascii) : bool :=
  ((65 <=? N_of_ascii c) && (N_of_ascii c <=? 90))%N.

(** Two characters are the same letter up to case: equal, or an upper-case
    letter and the lower-case letter 32 codes above it. *)
Definition same_letter (a b : ascii) : bool :=
  Ascii.eqb a b ||
  (is_upper a && (N_of_ascii b =? N_of_ascii a + 32)%N) ||
  (is_upper b && (N_of_ascii a =? N_of_ascii b + 32)%N).

(** Two strings of the same length with the same letters up to case. *)
Fixpoint equal_ignoring_case (a b : string) : bool :=
  match a, b with
  | EmptyString, EmptyString => true
  | String x a', String y b' => same_letter x y && equal_ignoring_case a' b'
  | _, _ => false
  end.

(** [searchText] occurs in [title] as a case-insensitive substring. *)
Definition containsIgnoringCase (title searchText : string) : Prop :=
  exists pre mid post,
    title = pre +:+ mid +:+ post /\ equal_ignoring_case mid searchText = true.

(** Every title of the catalog is an ASCII string. *)
Definition ascii_titles (items : list MenuItem) : Prop :=
  forall j, In j items -> ascii_only (title j) = true.

(** ** Rendering

    The tree returned by [App], without styles and layout: what is shown,
    under which key, and which event a press raises. *)

(** The two texts [renderItem] shows for an item. *)
Record MenuRow := mkMenuRow {
  row_title : string;
  row_price : string
}.

Definition renderItem (item : MenuItem) : MenuRow :=
  mkMenuRow (title item) ("$" +:+ price item).

(** The text [renderSectionHeader] shows for a section. *)
Definition renderSectionHeader (section : SectionData) : string :=
  sec_title section.

(** [keyExtractor] of the [SectionList]. *)
Definition keyExtractor (item : MenuItem) : string := item_id item.

(** One [TouchableOpacity] of the category row: its React key, whether the
    button and its text carry the selected style, its label and the event of
    [onPress]. *)
Record CategoryButton := mkCategoryButton {
  button_key : string;
  button_selected : bool;
  text_selected : bool;
  button_label : string;
  onPress : Event
}.

(** One section of the [SectionList]: the header and the keyed rows. *)
Record SectionView := mkSectionView {
  view_header : string;
  view_rows : list (string * MenuRow)
}.

Inductive Screen :=
| LoadingScreen                       (* the activity indicator *)
| MenuScreen (value : string)         (* the search bar *)
             (buttons : list CategoryButton)
             (sections : list SectionView).

Definition categoryButton (selectedCategories : gmap string bool)
    (category : string) : CategoryButton :=
  mkCategoryButton category
    (ToBoolean (read selectedCategories category))
    (ToBoolean (read selectedCategories category))
    category (PressCategory category).

Definition sectionView (section : SectionData) : SectionView :=
  mkSectionView (renderSectionHeader section)
    (map (fun item => (keyExtractor item, renderItem item)) (sec_data section)).

(** The body of the screen below the header. *)
Definition render (st : AppState) : Screen :=
  if isLoading st then LoadingScreen
  else MenuScreen (searchText st)
         (map (categoryButton (selectedCategories st)) (categories st))
         (map sectionView (filteredData st)).

(** The view a run of [filterData] publishes. *)
Definition published (P : Providers) (searchText : string)
    (selectedCategories : gmap string bool) (st : AppState) : list SectionData :=
  filteredData (exec (filterData P searchText selectedCategories) st).

(** * Properties *)

(** ** Lists of keys *)

Lemma existsb_eqb_In (c : string) (s : list string) :
  existsb (String.eqb c) s = true <-> In c s.
Proof.
  rewrite existsb_exists. split.
  - intros [x [Hx He]]. apply String.eqb_eq in He. now subst.
  - intros H. exists c. split; [assumption | apply String.eqb_refl].
Qed.

Lemma existsb_eqb_not_In (c : string) (s : list string) :
  existsb (String.eqb c) s = false <-> ~ In c s.
Proof.
  rewrite <- existsb_eqb_In. destruct (existsb _ s); split; congruence.
Qed.

Lemma filter_twice {A : Type} (f g : A -> bool) (l : list A) :
  List.filter f (List.filter g l) = List.filter (fun x => g x && f x) l.
Proof.
  induction l as [|x l IH]; simpl; [reflexivity|].
  destruct (g x); simpl; [destruct (f x)|]; now rewrite IH.
Qed.

Lemma filter_all {A : Type} (f : A -> bool) (l : list A) :
  (forall x, In x l -> f x = true) -> List.filter f l = l.
Proof.
  induction l as [|x l IH]; simpl; intros H; [reflexivity|].
  rewrite (H x) by now left. f_equal. apply IH. intros y Hy. apply H. now right.
Qed.

Lemma filter_none {A : Type} (f : A -> bool) (l : list A) :
  (forall x, In x l -> f x = false) -> List.filter f l = [].
Proof.
  induction l as [|x l IH]; simpl; intros H; [reflexivity|].
  rewrite (H x) by now left. apply IH. intros y Hy. apply H. now right.
Qed.

Lemma In_first_occurrences (k : string) (l : list string) :
  In k (first_occurrences l) <-> In k l.
Proof.
  induction l as [|c r IH]; simpl; [tauto|].
  rewrite List.filter_In, IH. destruct (String.eqb_spec k c); simpl.
  - subst. tauto.
  - split.
    + intros [->|[H _]]; [now left | now right].
    + intros [->|H]; [now left | right; auto].
Qed.

Lemma NoDup_first_occurrences (l : list string) : List.NoDup (first_occurrences l).
Proof.
  induction l as [|c r IH]; simpl; constructor.
  - rewrite List.filter_In, String.eqb_refl. simpl. intros [_ H]. discriminate.
  - now apply List.NoDup_filter.
Qed.

Lemma Set_of_acc (l acc : list string) :
  fold_left Set_add l acc =
  acc ++ List.filter (fun k => negb (existsb (String.eqb k) acc)) (first_occurrences l).
Proof.
  revert acc. induction l as [|c r IH]; intros acc; simpl.
  - now rewrite app_nil_r.
  - rewrite IH. unfold Set_add. rewrite filter_twice.
    destruct (existsb (String.eqb c) acc) eqn:Hc; simpl.
    + f_equal. apply List.filter_ext_in. intros k _.
      destruct (String.eqb_spec k c) as [->|Hn]; simpl; [now rewrite Hc | reflexivity].
    + rewrite <- app_assoc. simpl. do 2 f_equal.
      apply List.filter_ext_in. intros k _. rewrite existsb_app. simpl.
      rewrite orb_false_r, negb_orb. apply andb_comm.
Qed.

(** The iteration order of a [Set] is the order of first occurrence. *)
Lemma Set_of_first_occurrences (l : list string) : Set_of l = first_occurrences l.
Proof.
  unfold Set_of. rewrite Set_of_acc. simpl. now apply filter_all.
Qed.

Lemma Set_of_snoc (l : list string) (c : string) :
  Set_of (l ++ [c]) = Set_add (Set_of l) c.
Proof. unfold Set_of. now rewrite fold_left_app. Qed.

Lemma first_occurrences_snoc (l : list string) (c : string) :
  first_occurrences (l ++ [c]) =
  if existsb (String.eqb c) l then first_occurrences l else first_occurrences l ++ [c].
Proof.
  rewrite <- (Set_of_first_occurrences (l ++ [c])), Set_of_snoc.
  rewrite Set_of_first_occurrences. unfold Set_add.
  destruct (existsb (String.eqb c) (first_occurrences l)) eqn:H1;
    destruct (existsb (String.eqb c) l) eqn:H2; try reflexivity.
  - rewrite existsb_eqb_In, In_first_occurrences in H1.
    rewrite existsb_eqb_not_In in H2. contradiction.
  - rewrite existsb_eqb_In in H2.
    rewrite existsb_eqb_not_In, In_first_occurrences in H1. contradiction.
Qed.

(** ** The accumulator *)

Lemma own_put_same (o : Buckets) (k : string) (v : list MenuItem) :
  own (put o k v) k = Some v.
Proof.
  induction o as [|[k' v'] r IH]; simpl.
  - now rewrite String.eqb_refl.
  - destruct (String.eqb k k') eqn:E; simpl; now rewrite E.
Qed.

Lemma put_put (o : Buckets) (k : string) (v w : list MenuItem) :
  put (put o k v) k w = put o k w.
Proof.
  induction o as [|[k' v'] r IH]; simpl.
  - now rewrite String.eqb_refl.
  - destruct (String.eqb k k') eqn:E; simpl; rewrite E; [reflexivity | now rewrite IH].
Qed.

(** The reducer in one case analysis: push onto the bucket of the category,
    fail on a category that only [Object.prototype] knows, or create the
    bucket. *)
Lemma reducer_spec (acc : Buckets) (item : MenuItem) :
  reducer acc item =
  match own acc (category item) with
  | Some bucket => Ok (put acc (category item) (bucket ++ [item]))
  | None =>
      if inherited (category item) then Throw TypeError
      else Ok (put acc (category item) [item])
  end.
Proof.
  unfold reducer, get. destruct (own acc (category item)) as [b|] eqn:E; simpl.
  - now rewrite E.
  - destruct (inherited (category item)) eqn:I; simpl.
    + now rewrite E.
    + now rewrite own_put_same, put_put.
Qed.

Lemma reduce_app (l1 l2 : list MenuItem) (acc : Buckets) :
  reduce (l1 ++ l2) acc =
  match reduce l1 acc with
  | Ok a => reduce l2 a
  | Throw e => Throw e
  end.
Proof.
  revert acc. induction l1 as [|x l1 IH]; intros acc; simpl; [reflexivity|].
  destruct (reducer acc x); [apply IH | reflexivity].
Qed.

Lemma own_keyed (g : string -> list MenuItem) (ks : list string) (k : string) :
  own (map (fun k => (k, g k)) ks) k =
  if existsb (String.eqb k) ks then Some (g k) else None.
Proof.
  induction ks as [|k' r IH]; simpl; [reflexivity|].
  destruct (String.eqb_spec k k') as [->|Hn]; simpl; [reflexivity | apply IH].
Qed.

Lemma put_keyed_in (g : string -> list MenuItem) (ks : list string) (c : string)
    (v : list MenuItem) :
  List.NoDup ks -> In c ks ->
  put (map (fun k => (k, g k)) ks) c v =
  map (fun k => (k, if String.eqb c k then v else g k)) ks.
Proof.
  induction ks as [|k' r IH]; simpl; intros Hnd Hin; [contradiction|].
  inversion Hnd as [|? ? Hnotin Hnd']; subst.
  destruct (String.eqb_spec c k') as [->|Hn].
  - f_equal. apply map_ext_in. intros k Hk.
    destruct (String.eqb_spec k' k) as [->|_]; [contradiction | reflexivity].
  - f_equal. apply IH; [assumption|]. destruct Hin; [congruence | assumption].
Qed.

Lemma put_keyed_notin (g : string -> list MenuItem) (ks : list string) (c : string)
    (v : list MenuItem) :
  ~ In c ks ->
  put (map (fun k => (k, g k)) ks) c v = map (fun k => (k, g k)) ks ++ [(c, v)].
Proof.
  induction ks as [|k' r IH]; simpl; intros Hnotin; [reflexivity|].
  destruct (String.eqb_spec c k') as [->|Hn]; [tauto|].
  f_equal. apply IH. tauto.
Qed.

Lemma existsb_inherited_false (l : list MenuItem) :
  existsb (fun i => inherited (category i)) l = false <->
  (forall i, In i l -> inherited (category i) = false).
Proof.
  induction l as [|x l IH]; simpl.
  - split; [intros _ i [] | reflexivity].
  - rewrite orb_false_iff, IH. split.
    + intros [Hx Hl] i [<-|Hi]; auto.
    + intros H. split; [apply H; now left | intros i Hi; apply H; now right].
Qed.

Lemma filter_in_category_snoc (k : string) (l : list MenuItem) (x : MenuItem) :
  List.filter (in_category k) (l ++ [x]) =
  List.filter (in_category k) l ++ (if String.eqb (category x) k then [x] else []).
Proof. rewrite List.filter_app. reflexivity. Qed.

(** The fold of [getSectionListData] in closed form. *)
Lemma reduce_spec (l : list MenuItem) :
  reduce l [] =
  if existsb (fun i => inherited (category i)) l then Throw TypeError
  else Ok (grouped l).
Proof.
  induction l as [|x l IH] using rev_ind; [reflexivity|].
  rewrite reduce_app, IH, existsb_app. simpl. rewrite orb_false_r.
  destruct (existsb (fun i => inherited (category i)) l) eqn:Hl; [reflexivity|].
  simpl. rewrite reducer_spec. unfold grouped at 1 2 3. rewrite own_keyed.
  unfold grouped. rewrite map_app. simpl. rewrite first_occurrences_snoc.
  destruct (existsb (String.eqb (category x)) (first_occurrences (map category l)))
    eqn:H1.
  - rewrite existsb_eqb_In, In_first_occurrences in H1.
    assert (Hni : inherited (category x) = false).
    { apply in_map_iff in H1 as [i [Hc Hi]]. rewrite <- Hc.
      now apply (proj1 (existsb_inherited_false l) Hl). }
    rewrite Hni. rewrite (proj2 (existsb_eqb_In _ _) H1).
    rewrite put_keyed_in;
      [| apply NoDup_first_occurrences | now apply In_first_occurrences].
    f_equal. apply map_ext. intros k. rewrite filter_in_category_snoc.
    destruct (String.eqb_spec (category x) k) as [->|Hn].
    + reflexivity.
    + now rewrite app_nil_r.
  - rewrite existsb_eqb_not_In, In_first_occurrences in H1.
    rewrite (proj2 (existsb_eqb_not_In _ _) H1).
    destruct (inherited (category x)); [reflexivity|].
    rewrite put_keyed_notin by now rewrite In_first_occurrences.
    rewrite map_app. simpl. f_equal. f_equal.
    + apply map_ext_in. intros k Hk. rewrite In_first_occurrences in Hk.
      rewrite filter_in_category_snoc.
      destruct (String.eqb_spec (category x) k) as [E|Hn];
        [congruence | now rewrite app_nil_r].
    + rewrite filter_in_category_snoc, String.eqb_refl.
      rewrite filter_none; [reflexivity|].
      intros i Hi. unfold in_category.
      destruct (String.eqb_spec (category i) (category x)) as [E|Hn]; [|reflexivity].
      exfalso. apply H1. rewrite <- E. now apply in_map.
Qed.

(** [getSectionListData] raises exactly when some category names a member
    of [Object.prototype]; otherwise it lists the buckets in the order of
    [Object.entries]. *)
Lemma getSectionListData_spec (l : list MenuItem) :
  getSectionListData l =
  if existsb (fun i => inherited (category i)) l then Throw TypeError
  else Ok (map to_section (Object_entries (grouped l))).
Proof.
  unfold getSectionListData. rewrite reduce_spec.
  now destruct (existsb _ l).
Qed.

(** ** The order of [Object.entries] *)

Lemma insert_index_perm {A : Type} (n : N) (e : A) (l : list (N * A)) :
  Permutation (insert_index n e l) ((n, e) :: l).
Proof.
  induction l as [|[m e'] r IH]; simpl; [reflexivity|].
  destruct (n <=? m)%N; [reflexivity|].
  rewrite IH. apply perm_swap.
Qed.

Lemma sort_index_perm {A : Type} (l : list (N * A)) : Permutation (sort_index l) l.
Proof.
  induction l as [|[n e] r IH]; simpl; [reflexivity|].
  rewrite insert_index_perm. now constructor.
Qed.

Lemma insert_index_sorted {A : Type} (n : N) (e : A) (l : list (N * A)) :
  StronglySorted tag_le l -> StronglySorted tag_le (insert_index n e l).
Proof.
  induction l as [|[m e'] r IH]; simpl; intros Hs.
  - repeat constructor.
  - inversion Hs as [|? ? Hr Hall]; subst.
    destruct (n <=? m)%N eqn:E.
    + apply N.leb_le in E. constructor; [assumption|].
      constructor; [exact E|].
      eapply List.Forall_impl; [|exact Hall]. intros [p q] Hp.
      unfold tag_le in *; simpl in *. lia.
    + apply N.leb_gt in E. constructor; [now apply IH|].
      eapply Permutation_Forall; [symmetry; apply insert_index_perm|].
      constructor; [unfold tag_le; simpl; lia | assumption].
Qed.

Lemma sort_index_sorted {A : Type} (l : list (N * A)) :
  StronglySorted tag_le (sort_index l).
Proof.
  induction l as [|[n e] r IH]; simpl; [constructor | now apply insert_index_sorted].
Qed.

Lemma sort_index_id {A : Type} (l : list (N * A)) :
  StronglySorted tag_le l -> sort_index l = l.
Proof.
  induction l as [|[n e] r IH]; simpl; intros Hs; [reflexivity|].
  inversion Hs as [|? ? Hr Hall]; subst. rewrite IH by assumption.
  destruct r as [|[m e'] r']; simpl; [reflexivity|].
  inversion Hall as [|? ? Hm _]; subst. unfold tag_le in Hm; simpl in Hm.
  now rewrite (proj2 (N.leb_le n m) Hm).
Qed.

Lemma index_entries_tagged (o : Buckets) : Forall tagged (index_entries o).
Proof.
  induction o as [|[k v] r IH]; simpl; [constructor|].
  destruct (array_index k) eqn:E; [constructor|]; assumption.
Qed.

Lemma index_entries_app (o1 o2 : Buckets) :
  index_entries (o1 ++ o2) = index_entries o1 ++ index_entries o2.
Proof.
  induction o1 as [|[k v] r IH]; simpl; [reflexivity|].
  destruct (array_index k); simpl; now rewrite IH.
Qed.

Lemma index_entries_snd (l : list (N * (string * list MenuItem))) :
  Forall tagged l -> index_entries (map snd l) = l.
Proof.
  induction 1 as [|[n [k v]] l Ht _ IH]; simpl; [reflexivity|].
  unfold tagged in Ht; simpl in Ht. now rewrite Ht, IH.
Qed.

Lemma snd_index_entries (o : Buckets) :
  map snd (index_entries o) = List.filter (fun e => is_index (fst e)) o.
Proof.
  induction o as [|[k v] r IH]; simpl; [reflexivity|].
  unfold is_index. destruct (array_index k); simpl; now rewrite IH.
Qed.

Lemma index_entries_string_entries (o : Buckets) :
  index_entries (string_entries o) = [].
Proof.
  induction o as [|[k v] r IH]; simpl; [reflexivity|].
  unfold is_index. destruct (array_index k) eqn:E; simpl; [assumption|].
  now rewrite E.
Qed.

Lemma string_entries_snd (l : list (N * (string * list MenuItem))) :
  Forall tagged l -> string_entries (map snd l) = [].
Proof.
  induction 1 as [|[n [k v]] l Ht _ IH]; simpl; [reflexivity|].
  unfold tagged in Ht; simpl in Ht. unfold is_index. now rewrite Ht.
Qed.

Lemma filter_partition_perm {A : Type} (f : A -> bool) (l : list A) :
  Permutation (List.filter f l ++ List.filter (fun x => negb (f x)) l) l.
Proof.
  induction l as [|x l IH]; simpl; [reflexivity|].
  destruct (f x); simpl.
  - now constructor.
  - rewrite <- Permutation_middle. now constructor.
Qed.

Lemma Object_entries_perm (o : Buckets) : Permutation (Object_entries o) o.
Proof.
  unfold Object_entries, string_entries.
  rewrite (Permutation_map snd (sort_index_perm (index_entries o))).
  rewrite snd_index_entries. apply filter_partition_perm.
Qed.

(** Listing the entries of an object built from a listing changes nothing. *)
Lemma Object_entries_idem (o : Buckets) :
  Object_entries (Object_entries o) = Object_entries o.
Proof.
  assert (Ht : Forall tagged (sort_index (index_entries o))).
  { eapply Permutation_Forall; [symmetry; apply sort_index_perm|].
    apply index_entries_tagged. }
  unfold Object_entries at 1.
  unfold Object_entries at 1 2. rewrite index_entries_app.
  rewrite index_entries_snd by assumption.
  rewrite index_entries_string_entries, app_nil_r.
  rewrite sort_index_id by apply sort_index_sorted.
  unfold Object_entries. f_equal.
  unfold string_entries at 1. rewrite List.filter_app.
  fold (string_entries (map snd (sort_index (index_entries o)))).
  rewrite string_entries_snd by assumption. simpl.
  unfold string_entries. rewrite filter_twice.
  apply List.filter_ext. intros e. now rewrite andb_diag.
Qed.

(** ** Grouping *)

Lemma map_fst_grouped (l : list MenuItem) :
  map fst (grouped l) = first_occurrences (map category l).
Proof. unfold grouped. rewrite map_map. simpl. apply map_id. Qed.

Lemma In_grouped (l : list MenuItem) (k : string) (v : list MenuItem) :
  In (k, v) (grouped l) ->
  v = List.filter (in_category k) l /\ In k (map category l).
Proof.
  unfold grouped. rewrite in_map_iff. intros [k' [E Hk]].
  inversion E; subst. split; [reflexivity | now apply In_first_occurrences].
Qed.

Lemma well_grouped_grouped (l : list MenuItem) : well_grouped (grouped l).
Proof.
  split.
  - rewrite map_fst_grouped. apply NoDup_first_occurrences.
  - intros k v Hin. apply In_grouped in Hin as [-> Hk]. split.
    + apply in_map_iff in Hk as [i [Hc Hi]]. intros Hnil.
      assert (Hf : In i (List.filter (in_category k) l)).
      { apply List.filter_In. split; [assumption|].
        unfold in_category. rewrite Hc. apply String.eqb_refl. }
      rewrite Hnil in Hf. contradiction.
    + intros i Hi. apply List.filter_In in Hi as [_ Hi].
      now apply String.eqb_eq in Hi.
Qed.

Lemma map_fst_string_entries (o : Buckets) :
  map fst (string_entries o) = List.filter (fun k => negb (is_index k)) (map fst o).
Proof.
  induction o as [|[k v] r IH]; simpl; [reflexivity|].
  destruct (is_index k); simpl; now rewrite IH.
Qed.

Lemma map_fst_filter_index (o : Buckets) :
  map fst (List.filter (fun e => is_index (fst e)) o) = List.filter is_index (map fst o).
Proof.
  induction o as [|[k v] r IH]; simpl; [reflexivity|].
  destruct (is_index k); simpl; now rewrite IH.
Qed.

Lemma sec_title_to_section (o : Buckets) : map sec_title (map to_section o) = map fst o.
Proof. rewrite map_map. reflexivity. Qed.

Lemma sec_data_to_section (o : Buckets) : map sec_data (map to_section o) = map snd o.
Proof. rewrite map_map. reflexivity. Qed.

(** Keys of sorted tagged entries ascend by array index. *)
Lemma sorted_tagged_keys (l : list (N * (string * list MenuItem))) :
  Forall tagged l -> StronglySorted tag_le l ->
  StronglySorted index_le (map fst (map snd l)).
Proof.
  intros Ht Hs. induction Hs as [|[n [k v]] l Hs IH Hall]; simpl; [constructor|].
  inversion Ht as [|? ? Hk Ht']; subst. constructor; [now apply IH|].
  rewrite !Forall_map. rewrite Forall_forall in Hall, Ht' |- *.
  intros [m [k' v']] Hin. specialize (Hall _ Hin). specialize (Ht' _ Hin).
  unfold tagged in Hk, Ht'. unfold tag_le in Hall. unfold index_le.
  simpl in *. now rewrite Hk, Ht'.
Qed.

(** The section titles: array-index categories in ascending order, then the
    other categories in order of first occurrence. *)
Lemma Object_entries_keys (o : Buckets) :
  exists idx,
    map fst (Object_entries o) =
      idx ++ List.filter (fun k => negb (is_index k)) (map fst o) /\
    Permutation idx (List.filter is_index (map fst o)) /\
    StronglySorted index_le idx.
Proof.
  exists (map fst (map snd (sort_index (index_entries o)))).
  split; [|split].
  - unfold Object_entries. now rewrite map_app, map_fst_string_entries.
  - rewrite (Permutation_map snd (sort_index_perm (index_entries o))).
    now rewrite snd_index_entries, map_fst_filter_index.
  - apply sorted_tagged_keys; [|apply sort_index_sorted].
    eapply Permutation_Forall; [symmetry; apply sort_index_perm|].
    apply index_entries_tagged.
Qed.

Lemma getSectionListData_Ok (l : list MenuItem) (secs : list SectionData) :
  getSectionListData l = Ok secs ->
  existsb (fun i => inherited (category i)) l = false /\
  secs = map to_section (Object_entries (grouped l)).
Proof.
  rewrite getSectionListData_spec.
  destruct (existsb _ l); [discriminate|]. intros H. now inversion H.
Qed.

(** C3, amended.  Whenever grouping returns, the section titles are the
    categories that are array-index strings in ascending numeric order,
    followed by the remaining categories in order of first occurrence (so
    exactly the order of first occurrence when no category is an array
    index), and every section lists the items of its category in their input
    order. *)
Theorem getSectionListData_order (l : list MenuItem) (secs : list SectionData) :
  getSectionListData l = Ok secs ->
  (exists idx,
     map sec_title secs =
       idx ++ List.filter (fun k => negb (is_index k))
                (first_occurrences (map category l)) /\
     Permutation idx (List.filter is_index (first_occurrences (map category l))) /\
     StronglySorted index_le idx) /\
  (forall s, In s secs -> sec_data s = List.filter (in_category (sec_title s)) l) /\
  ((forall i, In i l -> is_index (category i) = false) ->
   map sec_title secs = first_occurrences (map category l)).
Proof.
  intros H. apply getSectionListData_Ok in H as [_ ->].
  rewrite sec_title_to_section.
  destruct (Object_entries_keys (grouped l)) as [idx [Hk [Hp Hs]]].
  rewrite map_fst_grouped in Hk, Hp.
  split; [|split].
  - now exists idx.
  - intros s Hin. apply in_map_iff in Hin as [[k v] [<- Hin]]. simpl.
    apply (Permutation_in _ (Object_entries_perm _)) in Hin.
    now apply In_grouped in Hin as [-> _].
  - intros Hno. rewrite Hk.
    assert (Hnil : List.filter is_index (first_occurrences (map category l)) = []).
    { apply filter_none. intros k Hk'. rewrite In_first_occurrences in Hk'.
      apply in_map_iff in Hk' as [i [<- Hi]]. now apply Hno. }
    rewrite Hnil in Hp. symmetry in Hp. apply Permutation_nil in Hp. subst idx. simpl.
    apply filter_all. intros k Hk'. rewrite In_first_occurrences in Hk'.
    apply in_map_iff in Hk' as [i [<- Hi]]. now rewrite Hno.
Qed.

(** Grouping returns exactly when no category names a member of
    [Object.prototype]. *)
Lemma getSectionListData_returns (l : list MenuItem) :
  (exists secs, getSectionListData l = Ok secs) <->
  (forall i, In i l -> inherited (category i) = false).
Proof.
  rewrite <- existsb_inherited_false, getSectionListData_spec.
  destruct (existsb _ l); split; try discriminate; eauto.
  intros [secs H]. discriminate.
Qed.

(** ** Regrouping a grouped list *)

Lemma first_occurrences_prefix (v : list MenuItem) (k : string) (t : list string) :
  v <> [] -> (forall i, In i v -> category i = k) ->
  first_occurrences (map category v ++ t) =
  k :: List.filter (fun k' => negb (String.eqb k' k)) (first_occurrences t).
Proof.
  induction v as [|x v IH]; [contradiction|]. intros _ Hall. simpl.
  rewrite (Hall x) by now left. f_equal.
  destruct v as [|y v']; [reflexivity|].
  rewrite IH; [|discriminate | intros i Hi; apply Hall; now right].
  simpl. rewrite String.eqb_refl. simpl. rewrite filter_twice.
  apply List.filter_ext. intros k'. apply andb_diag.
Qed.

Lemma well_grouped_tail (e : string * list MenuItem) (o : Buckets) :
  well_grouped (e :: o) -> well_grouped o.
Proof.
  intros [Hnd Hall]. split.
  - now inversion Hnd.
  - intros k v Hin. apply Hall. now right.
Qed.

Lemma well_grouped_items (o : Buckets) (i : MenuItem) :
  well_grouped o -> In i (concat (map snd o)) -> In (category i) (map fst o).
Proof.
  intros [_ Hall] Hin. apply in_concat in Hin as [v [Hv Hi]].
  apply in_map_iff in Hv as [[k v'] [E Hkv]]. simpl in E. subst v'.
  destruct (Hall k v Hkv) as [_ Hc]. rewrite (Hc i Hi).
  now apply (in_map fst) in Hkv.
Qed.

(** Grouping the concatenation of well-grouped buckets gives them back. *)
Lemma grouped_concat (o : Buckets) :
  well_grouped o -> grouped (concat (map snd o)) = o.
Proof.
  induction o as [|[k v] r IH]; intros Hwf; [reflexivity|].
  pose proof (well_grouped_tail _ _ Hwf) as Hr. specialize (IH Hr).
  destruct Hwf as [Hnd Hall]. simpl in Hnd.
  inversion Hnd as [|? ? Hk Hnd']; subst.
  destruct (Hall k v (or_introl eq_refl)) as [Hne Hcat].
  assert (Hkeys : first_occurrences (map category (concat (map snd r))) = map fst r).
  { rewrite <- map_fst_grouped. now rewrite IH. }
  unfold grouped. simpl concat. rewrite map_app.
  rewrite (first_occurrences_prefix v k) by assumption. rewrite Hkeys.
  rewrite filter_all.
  2:{ intros k' Hk'. destruct (String.eqb_spec k' k) as [->|_];
      [contradiction | reflexivity]. }
  simpl. f_equal.
  - f_equal. rewrite List.filter_app.
    rewrite filter_all.
    2:{ intros i Hi. unfold in_category. rewrite (Hcat i Hi).
        apply String.eqb_refl. }
    rewrite filter_none; [apply app_nil_r|].
    intros i Hi. unfold in_category.
    destruct (String.eqb_spec (category i) k) as [E|_]; [|reflexivity].
    exfalso. apply Hk. rewrite <- E. now apply well_grouped_items.
  - rewrite <- IH at 2. unfold grouped. rewrite Hkeys.
    apply map_ext_in. intros k' Hk'. f_equal.
    rewrite List.filter_app. rewrite filter_none; [reflexivity|].
    intros i Hi. unfold in_category. rewrite (Hcat i Hi).
    destruct (String.eqb_spec k k') as [->|_]; [contradiction | reflexivity].
Qed.

Lemma well_grouped_perm (o o' : Buckets) :
  Permutation o o' -> well_grouped o -> well_grouped o'.
Proof.
  intros Hp [Hnd Hall]. split.
  - eapply Permutation_NoDup; [|exact Hnd]. now apply Permutation_map.
  - intros k v Hin. apply Hall. eapply Permutation_in; [symmetry; exact Hp | exact Hin].
Qed.

Lemma In_flatten_grouped (l : list MenuItem) (i : MenuItem) :
  In i (concat (map snd (grouped l))) <-> In i l.
Proof.
  rewrite in_concat. split.
  - intros [v [Hv Hi]]. apply in_map_iff in Hv as [[k v'] [E Hkv]].
    simpl in E. subst v'. apply In_grouped in Hkv as [-> _].
    now apply List.filter_In in Hi as [Hi _].
  - intros Hi. exists (List.filter (in_category (category i)) l). split.
    + apply in_map_iff. exists (category i, List.filter (in_category (category i)) l).
      split; [reflexivity|]. unfold grouped. apply in_map_iff.
      exists (category i). split; [reflexivity|].
      apply In_first_occurrences. now apply in_map.
    + apply List.filter_In. split; [assumption | apply String.eqb_refl].
Qed.

Lemma concat_perm {A : Type} (l l' : list (list A)) :
  Permutation l l' -> Permutation (concat l) (concat l').
Proof.
  induction 1 as [|x l l' _ IH|x y l|l l' l'' _ IH1 _ IH2]; simpl.
  - reflexivity.
  - now apply Permutation_app_head.
  - rewrite !app_assoc. apply Permutation_app_tail, Permutation_app_comm.
  - now transitivity (concat l').
Qed.

(** The items of the sections are the items of the input. *)
Lemma In_flatten_sections (l : list MenuItem) (secs : list SectionData) (i : MenuItem) :
  getSectionListData l = Ok secs -> (In i (flatten secs) <-> In i l).
Proof.
  intros H. apply getSectionListData_Ok in H as [_ ->].
  unfold flatten. rewrite sec_data_to_section.
  etransitivity; [|apply In_flatten_grouped].
  split; apply Permutation_in; [|symmetry];
    apply concat_perm, Permutation_map, Object_entries_perm.
Qed.

(** X4.  Grouping is idempotent wherever it returns: grouping the
    flattened sections of a grouping gives the same sections. *)
Lemma getSectionListData_idempotent (l : list MenuItem) (secs : list SectionData) :
  getSectionListData l = Ok secs -> getSectionListData (flatten secs) = Ok secs.
Proof.
  intros H. pose proof (In_flatten_sections l secs) as Hin.
  pose proof H as H'. apply getSectionListData_Ok in H' as [Hl ->].
  rewrite getSectionListData_spec.
  assert (Hf : existsb (fun i => inherited (category i))
                 (flatten (map to_section (Object_entries (grouped l)))) = false).
  { apply existsb_inherited_false. intros i Hi. apply (Hin i H) in Hi.
    now apply (proj1 (existsb_inherited_false l) Hl). }
  rewrite Hf. unfold flatten. rewrite sec_data_to_section.
  rewrite grouped_concat.
  - now rewrite Object_entries_idem.
  - eapply well_grouped_perm; [symmetry; apply Object_entries_perm|].
    apply well_grouped_grouped.
Qed.

Lemma getSectionListData_nil : getSectionListData [] = Ok [].
Proof. reflexivity. Qed.

Lemma getSectionListData_Ok_nil (l : list MenuItem) :
  getSectionListData l = Ok [] -> l = [].
Proof.
  intros H. destruct l as [|x l]; [reflexivity|].
  pose proof (In_flatten_sections _ _ x H) as Hin. simpl in Hin.
  exfalso. apply Hin. now left.
Qed.

(** C3, the claim as written fails: with the categories "2" then "1" the
    sections come out as "1" then "2", which is not the order of first
    occurrence. *)
Lemma getSectionListData_order_counterexample :
  getSectionListData
    [mkMenuItem "a" "Tea" "2.00" "2"; mkMenuItem "b" "Pie" "3.00" "1"] =
    Ok [mkSection "1" [mkMenuItem "b" "Pie" "3.00" "1"];
        mkSection "2" [mkMenuItem "a" "Tea" "2.00" "2"]] /\
  map sec_title
    [mkSection "1" [mkMenuItem "b" "Pie" "3.00" "1"];
     mkSection "2" [mkMenuItem "a" "Tea" "2.00" "2"]] <>
  first_occurrences
    (map category [mkMenuItem "a" "Tea" "2.00" "2"; mkMenuItem "b" "Pie" "3.00" "1"]).
Proof. split; [reflexivity | discriminate]. Qed.

Lemma getSectionListData_order_witness :
  exists secs,
    getSectionListData
      [mkMenuItem "a" "Tea" "2.00" "2"; mkMenuItem "b" "Scone" "1.50" "Bakery";
       mkMenuItem "c" "Pie" "3.00" "1"; mkMenuItem "d" "Bun" "1.00" "Bakery"] = Ok secs /\
    map sec_title secs = ["1"; "2"; "Bakery"] /\
    (forall s, In s secs ->
       sec_data s =
       List.filter (in_category (sec_title s))
         [mkMenuItem "a" "Tea" "2.00" "2"; mkMenuItem "b" "Scone" "1.50" "Bakery";
          mkMenuItem "c" "Pie" "3.00" "1"; mkMenuItem "d" "Bun" "1.00" "Bakery"]).
Proof.
  eexists. split; [reflexivity|]. split; [reflexivity|].
  apply (getSectionListData_order
           [mkMenuItem "a" "Tea" "2.00" "2"; mkMenuItem "b" "Scone" "1.50" "Bakery";
            mkMenuItem "c" "Pie" "3.00" "1"; mkMenuItem "d" "Bun" "1.00" "Bakery"]).
  reflexivity.
Defined.

(** C4.  Grouping is not total: an item whose category is "constructor"
    makes [getSectionListData] raise a TypeError, because the accumulator
    reads the inherited [Object] function as an existing bucket. *)
Theorem getSectionListData_throws :
  getSectionListData [mkMenuItem "1" "Pie" "3.00" "constructor"] = Throw TypeError.
Proof. reflexivity. Qed.

(** ** The initial selection *)

Lemma assign_true_lookup (ks : list string) (m : gmap string bool) (k : string) :
  m !! "__proto__" = None ->
  fold_left (fun o c => assign o c true) ks m !! k =
  if existsb (String.eqb k) ks && negb (String.eqb k "__proto__")
  then Some true else m !! k.
Proof.
  revert m. induction ks as [|c r IH]; intros m Hm; simpl; [reflexivity|].
  unfold assign at 2.
  destruct (String.eqb_spec c "__proto__") as [->|Hc].
  - rewrite Hm. rewrite IH by assumption.
    destruct (String.eqb k "__proto__"); simpl; [|reflexivity].
    now rewrite !andb_false_r.
  - assert (E : (match m !! c with
                 | Some _ => <[c:=true]> m
                 | None => <[c:=true]> m
                 end) = <[c:=true]> m) by now destruct (m !! c).
    rewrite E. rewrite IH by now rewrite lookup_insert_ne.
    destruct (String.eqb_spec k c) as [->|Hk]; simpl.
    + rewrite lookup_insert_eq.
      destruct (String.eqb_spec c "__proto__"); [contradiction|].
      simpl. now destruct (existsb _ r).
    + now rewrite lookup_insert_ne by congruence.
Qed.

(** The entries of the derived selection: every category except the key
    [__proto__], each mapped to [true]. *)
Lemma deriveInitial_lookup (items : list MenuItem) (k : string) :
  deriveInitial items !! k =
  if existsb (String.eqb k) (map category items) && negb (String.eqb k "__proto__")
  then Some true else None.
Proof.
  unfold deriveInitial, initialCategories, uniqueCategories.
  rewrite assign_true_lookup by apply lookup_empty.
  rewrite Set_of_first_occurrences, lookup_empty.
  destruct (existsb (String.eqb k) (first_occurrences (map category items))) eqn:H1;
    destruct (existsb (String.eqb k) (map category items)) eqn:H2; try reflexivity.
  - rewrite existsb_eqb_In, In_first_occurrences in H1.
    rewrite existsb_eqb_not_In in H2. contradiction.
  - rewrite existsb_eqb_In in H2.
    rewrite existsb_eqb_not_In, In_first_occurrences in H1. contradiction.
Qed.

(** X7.  Selection completeness for catalogs that do not use the category
    [__proto__]: one entry per distinct category, all [true], no others. *)
Lemma deriveInitial_complete (items : list MenuItem) :
  (forall i, In i items -> category i <> "__proto__") ->
  (forall c, In c (map category items) -> deriveInitial items !! c = Some true) /\
  (forall c b, deriveInitial items !! c = Some b ->
     In c (map category items) /\ b = true) /\
  size (deriveInitial items) = length (first_occurrences (map category items)).
Proof.
  intros Hno.
  assert (Hl : forall c, deriveInitial items !! c =
                 if existsb (String.eqb c) (map category items)
                 then Some true else None).
  { intros c. rewrite deriveInitial_lookup.
    destruct (existsb (String.eqb c) (map category items)) eqn:E; [|reflexivity].
    apply existsb_eqb_In, in_map_iff in E as [i [<- Hi]].
    destruct (String.eqb_spec (category i) "__proto__") as [E|_]; [|reflexivity].
    now apply Hno in Hi. }
  split; [|split].
  - intros c Hc. rewrite Hl. now rewrite (proj2 (existsb_eqb_In _ _) Hc).
  - intros c b. rewrite Hl.
    destruct (existsb (String.eqb c) (map category items)) eqn:E; [|discriminate].
    intros [= <-]. split; [now apply existsb_eqb_In | reflexivity].
  - rewrite <- size_dom.
    assert (Hd : dom (deriveInitial items) =
                 list_to_set (first_occurrences (map category items))).
    { apply set_eq. intros c.
      rewrite elem_of_dom, elem_of_list_to_set, list_elem_of_In, In_first_occurrences.
      rewrite Hl. rewrite <- existsb_eqb_In.
      destruct (existsb (String.eqb c) (map category items)); split;
        intros H; try reflexivity; try discriminate; eauto.
      destruct H as [b H]. discriminate. }
    rewrite Hd. apply size_list_to_set. apply NoDup_ListNoDup.
    apply NoDup_first_occurrences.
Qed.

(** C5.  The derivation misses the category [__proto__]: the assignment
    [initialCategories["__proto__"] = true] runs the inherited setter, which
    ignores a boolean, so the one distinct category of this catalog gets no
    entry and the map has no key at all. *)
Theorem deriveInitial_misses_proto :
  deriveInitial [mkMenuItem "1" "Pie" "3.00" "__proto__"] !! "__proto__" = None /\
  size (deriveInitial [mkMenuItem "1" "Pie" "3.00" "__proto__"]) = 0%nat /\
  length (first_occurrences
            (map category [mkMenuItem "1" "Pie" "3.00" "__proto__"])) = 1%nat.
Proof. repeat split. Qed.

(** ** Toggling *)

Lemma toggle_lookup_other (state : gmap string bool) (c k : string) :
  k <> c -> toggle state c !! k = state !! k.
Proof. intros H. unfold toggle. now rewrite lookup_insert_ne by congruence. Qed.

Lemma toggle_lookup_present (state : gmap string bool) (c : string) (b : bool) :
  state !! c = Some b -> toggle state c !! c = Some (negb b).
Proof.
  intros H. unfold toggle, read. now rewrite H, lookup_insert_eq.
Qed.

Lemma toggle_lookup_absent (state : gmap string bool) (c : string) :
  state !! c = None -> toggle state c !! c = Some (negb (inherited c)).
Proof.
  intros H. unfold toggle, read. rewrite H, lookup_insert_eq.
  now destruct (inherited c).
Qed.

(** C6, the claim as written fails: toggling a category that is not a key
    is not a no-op, it adds the key. *)
Lemma toggle_absent_counterexample :
  (∅ : gmap string bool) !! "Salads" = None /\
  toggle ∅ "Salads" !! "Salads" = Some true /\
  toggle ∅ "Salads" <> ∅.
Proof.
  split; [reflexivity|]. split; [reflexivity|].
  intros H. apply (f_equal (fun m => m !! "Salads")) in H. discriminate.
Qed.

(** C6, amended.  [toggle state c] agrees with [state] at every key other
    than [c]; a key [c] of [state] has its boolean flipped; a category [c]
    that is not a key is added, with value [true] ([!undefined]) unless [c]
    names a member of [Object.prototype], which reads as truthy and gives
    [false]; the keys of the result are those of [state] and [c]. *)
Theorem toggle_single_key (state : gmap string bool) (c : string) :
  (forall k, k <> c -> toggle state c !! k = state !! k) /\
  (forall b, state !! c = Some b -> toggle state c !! c = Some (negb b)) /\
  (state !! c = None -> toggle state c !! c = Some (negb (inherited c))) /\
  dom (toggle state c) = {[c]} ∪ dom state.
Proof.
  split; [|split; [|split]].
  - intros k. apply toggle_lookup_other.
  - intros b. apply toggle_lookup_present.
  - apply toggle_lookup_absent.
  - unfold toggle. apply dom_insert_L.
Qed.

(** C10.  Toggling twice a category that is a key of the selection gives
    the selection back. *)
Theorem toggle_involutive (state : gmap string bool) (c : string) :
  c ∈ dom state -> toggle (toggle state c) c = state.
Proof.
  intros H. apply elem_of_dom in H as [b Hb].
  unfold toggle at 1. unfold read. rewrite (toggle_lookup_present _ _ _ Hb).
  unfold toggle, read. rewrite Hb. simpl.
  rewrite insert_insert_eq, negb_involutive. now apply insert_id.
Qed.

Lemma toggle_involutive_witness :
  "Salads" ∈ dom (deriveInitial MENU_ITEMS) /\
  toggle (toggle (deriveInitial MENU_ITEMS) "Salads") "Salads" =
    deriveInitial MENU_ITEMS.
Proof.
  assert (H : "Salads" ∈ dom (deriveInitial MENU_ITEMS)).
  { apply elem_of_dom. exists true. reflexivity. }
  split; [exact H | exact (toggle_involutive _ _ H)].
Defined.

(** ** Case-insensitive search *)

Lemma append_nil_l (s : string) : EmptyString +:+ s = s.
Proof. reflexivity. Qed.

Lemma append_cons (c : ascii) (a b : string) : String c a +:+ b = String c (a +:+ b).
Proof. reflexivity. Qed.

Lemma toLowerCase_app (a b : string) :
  toLowerCase (a +:+ b) = toLowerCase a +:+ toLowerCase b.
Proof.
  induction a as [|c a IH]; [reflexivity|].
  rewrite append_cons. simpl. now rewrite IH, append_cons.
Qed.

Lemma toLowerCase_split (a b t : string) :
  toLowerCase t = a +:+ b ->
  exists t1 t2, t = t1 +:+ t2 /\ toLowerCase t1 = a /\ toLowerCase t2 = b.
Proof.
  revert t. induction a as [|c a IH]; intros t H.
  - exists EmptyString, t. now rewrite append_nil_l in H |- *.
  - rewrite append_cons in H. destruct t as [|d t]; simpl in H; [discriminate|].
    injection H as Hc Ht. destruct (IH t Ht) as [t1 [t2 [-> [H1 H2]]]].
    exists (String d t1), t2. rewrite append_cons. simpl.
    now rewrite Hc, H1.
Qed.

Lemma startsWith_prefix (s p : string) :
  startsWith s p = true <-> exists post, s = p +:+ post.
Proof.
  revert s. induction p as [|a p IH]; intros s; simpl.
  - split; [intros _; exists s; reflexivity | reflexivity].
  - destruct s as [|b s].
    + split; [discriminate | intros [post H]; rewrite append_cons in H; discriminate].
    + destruct (Ascii.eqb_spec a b) as [->|Hn].
      * rewrite IH. split; intros [post H]; exists post.
        -- rewrite append_cons. now f_equal.
        -- rewrite append_cons in H. now injection H.
      * split; [discriminate|]. intros [post H]. rewrite append_cons in H.
        injection H as E _. congruence.
Qed.

Lemma includes_substring (s sub : string) :
  includes s sub = true <-> exists pre post, s = pre +:+ sub +:+ post.
Proof.
  induction s as [|c s IH]; simpl; rewrite orb_true_iff, startsWith_prefix.
  - split.
    + intros [[post H]|H]; [|discriminate]. exists EmptyString, post.
      now rewrite append_nil_l.
    + intros [pre [post H]]. left. destruct pre as [|c pre].
      * exists post. now rewrite append_nil_l in H.
      * rewrite append_cons in H. discriminate.
  - rewrite IH. split.
    + intros [[post H]|[pre [post H]]].
      * exists EmptyString, post. now rewrite append_nil_l.
      * exists (String c pre), post. rewrite append_cons. now f_equal.
    + intros [pre [post H]]. destruct pre as [|c' pre].
      * left. exists post. now rewrite append_nil_l in H.
      * right. rewrite append_cons in H. injection H as _ H. now exists pre, post.
Qed.

(** The test of the filter callback is case-insensitive containment. *)
Lemma matchesSearch_titleContains (searchText : string) (item : MenuItem) :
  matchesSearch searchText item = true <-> titleContains (title item) searchText.
Proof.
  unfold matchesSearch, titleContains. rewrite includes_substring. split.
  - intros [pre [post H]].
    apply toLowerCase_split in H as [t1 [t' [Ht [H1 H']]]].
    apply toLowerCase_split in H' as [t2 [t3 [Ht' [H2 H3]]]].
    exists t1, t2, t3. split; [now rewrite Ht, Ht' | assumption].
  - intros [pre [mid [post [Ht Hm]]]].
    exists (toLowerCase pre), (toLowerCase post).
    now rewrite Ht, !toLowerCase_app, Hm.
Qed.

(** The empty search text matches every title. *)
Lemma matchesSearch_empty (item : MenuItem) : matchesSearch EmptyString item = true.
Proof. unfold matchesSearch. simpl. now destruct (toLowerCase (title item)). Qed.

(** ** The effects *)

Lemma MENU_ITEMS_categories (i : MenuItem) :
  In i MENU_ITEMS -> inherited (category i) = false.
Proof.
  assert (H : forallb (fun i => negb (inherited (category i))) MENU_ITEMS = true)
    by reflexivity.
  rewrite forallb_forall in H. intros Hi. apply H in Hi.
  now destruct (inherited (category i)).
Qed.

(** Grouping any part of the bundled menu returns. *)
Lemma fallback_returns (searchText : string) (selectedCategories : gmap string bool) :
  getSectionListData
    (List.filter (keep searchText selectedCategories) MENU_ITEMS) =
  Ok (fallbackView searchText selectedCategories).
Proof.
  unfold fallbackView.
  destruct (proj2 (getSectionListData_returns
                     (List.filter (keep searchText selectedCategories) MENU_ITEMS)))
    as [secs H].
  - intros i Hi. apply List.filter_In in Hi as [Hi _].
    now apply MENU_ITEMS_categories.
  - now rewrite H.
Qed.

Lemma getSectionListData_MENU_ITEMS :
  exists secs, getSectionListData MENU_ITEMS = Ok secs /\ flatten secs = MENU_ITEMS.
Proof. eexists. split; vm_compute; reflexivity. Qed.

(** [filterData] never raises and publishes [FilteredView]. *)
Lemma filterData_spec (P : Providers) (s : string) (sel : gmap string bool)
    (st : AppState) :
  filterData P s sel st =
  (Ok tt, mkAppState (searchText st) (data st) (FilteredView (getMenuItems P) s sel)
            (selectedCategories st) (categories st) (isLoading st)).
Proof.
  unfold filterData, try_catch, FilteredView, mbind, App_bind, lift, setFilteredData.
  destruct (getMenuItems P) as [allItems|e].
  - destruct (getSectionListData (List.filter (keep s sel) allItems)); [reflexivity|].
    now rewrite fallback_returns.
  - now rewrite fallback_returns.
Qed.

Lemma filterEffect_spec (P : Providers) (st : AppState) :
  exec (filterEffect P) st =
  match data st with
  | [] => st
  | _ :: _ =>
      mkAppState (searchText st) (data st)
        (FilteredView (getMenuItems P) (searchText st) (selectedCategories st))
        (selectedCategories st) (categories st) (isLoading st)
  end.
Proof.
  unfold exec, filterEffect. destruct (data st) eqn:E; [reflexivity|].
  rewrite filterData_spec. simpl. now rewrite E.
Qed.

Lemma publish_spec (items : list MenuItem) (st : AppState) :
  publish items st =
  match getSectionListData items with
  | Ok secs =>
      (Ok tt, mkAppState (searchText st) secs secs (deriveInitial items)
                (uniqueCategories items) (isLoading st))
  | Throw e =>
      (Throw e, mkAppState (searchText st) (data st) (filteredData st)
                  (deriveInitial items) (uniqueCategories items) (isLoading st))
  end.
Proof.
  unfold publish, mbind, App_bind, lift, setCategories, setSelectedCategories,
    setData, setFilteredData, loaded, deriveInitial. simpl.
  now destruct (getSectionListData items).
Qed.

(** [initializeApp] never raises: it publishes the resolved catalog, its
    sections, its categories and the all-true selection, and clears the busy
    flag. *)
Lemma initializeApp_spec (P : Providers) (st : AppState) :
  exists secs,
    getSectionListData (resolve P) = Ok secs /\
    initializeApp P st = (Ok tt, loaded st (resolve P) secs).
Proof.
  destruct getSectionListData_MENU_ITEMS as [dflt [Hd _]].
  unfold initializeApp, finally, try_catch, resolve.
  unfold mbind, App_bind, mret, App_ret, lift, setIsLoading.
  destruct (createTable P) as [[]|e0];
    (destruct (fetchData P) as [menuItems|e1];
     [destruct (saveMenuItems P menuItems) as [[]|e2]|]);
    (destruct (getMenuItems P) as [items|e3];
     [destruct (getSectionListData items) as [secs|e4] eqn:Hg|]);
    cbv beta iota; rewrite ?publish_spec, ?Hg; cbv beta iota;
    rewrite ?publish_spec, ?Hd; cbv beta iota;
    eexists; (split; [first [eassumption | reflexivity] | reflexivity]).
Qed.

Lemma initializeApp_total (P : Providers) (st : AppState) :
  fst (initializeApp P st) = Ok tt.
Proof. destruct (initializeApp_spec P st) as [secs [_ ->]]. reflexivity. Qed.

(** ** Start-up when the fetch fails *)





(** ** The published view *)

Lemma resolve_nil (P : Providers) : resolve P = [] -> getMenuItems P = Ok [].
Proof.
  unfold resolve.
  destruct (createTable P); [|discriminate].
  destruct (getMenuItems P) as [items|]; [|discriminate].
  destruct (getSectionListData items); [|discriminate].
  now intros ->.
Qed.

Lemma FilteredView_nil (s : string) (sel : gmap string bool) :
  FilteredView (Ok []) s sel = [].
Proof. reflexivity. Qed.

Lemma mount_view (P : Providers) :
  (data (mount P) = [] -> getMenuItems P = Ok []) /\
  filteredData (mount P) =
    FilteredView (getMenuItems P) (searchText (mount P)) (selectedCategories (mount P)).
Proof.
  destruct (initializeApp_spec P initialState) as [secs [Hs Hi]].
  assert (Hm : mount P = exec (filterEffect P) (loaded initialState (resolve P) secs)).
  { unfold mount. rewrite (filterEffect_spec P initialState). simpl.
    unfold exec at 2. now rewrite Hi. }
  rewrite Hm, filterEffect_spec. simpl.
  destruct secs as [|s secs]; simpl.
  - apply getSectionListData_Ok_nil, resolve_nil in Hs. rewrite Hs.
    split; [reflexivity | now rewrite FilteredView_nil].
  - split; [discriminate | reflexivity].
Qed.

Lemma step_view (P : Providers) (st : AppState) (ev : Event) :
  (data st = [] -> getMenuItems P = Ok []) /\
  filteredData st =
    FilteredView (getMenuItems P) (searchText st) (selectedCategories st) ->
  (data (step P st ev) = [] -> getMenuItems P = Ok []) /\
  filteredData (step P st ev) =
    FilteredView (getMenuItems P) (searchText (step P st ev))
      (selectedCategories (step P st ev)).
Proof.
  intros [Hd Hf]. destruct ev as [text|c]; simpl.
  - destruct (String.eqb text (searchText st)); [now split|].
    rewrite filterEffect_spec. simpl.
    destruct (data st) as [|s secs] eqn:E; simpl.
    + rewrite E. split; [assumption|]. rewrite Hf, (Hd eq_refl).
      now rewrite !FilteredView_nil.
    + split; [discriminate | reflexivity].
  - rewrite filterEffect_spec. simpl.
    destruct (data st) as [|s secs] eqn:E; simpl.
    + rewrite E. split; [assumption|]. rewrite Hf, (Hd eq_refl).
      now rewrite !FilteredView_nil.
    + split; [discriminate | reflexivity].
Qed.

Lemma reachable_view (P : Providers) (st : AppState) :
  reachable P st ->
  (data st = [] -> getMenuItems P = Ok []) /\
  filteredData st =
    FilteredView (getMenuItems P) (searchText st) (selectedCategories st).
Proof.
  induction 1 as [|st ev _ IH]; [apply mount_view | now apply step_view].
Qed.

(** C9, the claim as written fails: the view is not a function of the
    loaded catalog.  In both runs [createTable] rejects, so the bundled menu
    is loaded and the search text and the selection are the same, but the
    filter reads the store again and publishes what it finds there. *)
Lemma filteredData_loaded_catalog_counterexample :
  data (mount (mkProviders (Throw Rejected) (Throw Rejected) (fun _ => Ok tt)
                 (Ok [mkMenuItem "h" "House Salad" "7.99" "Salads"]))) =
  data (mount (mkProviders (Throw Rejected) (Throw Rejected) (fun _ => Ok tt)
                 (Ok MENU_ITEMS))) /\
  searchText (mount (mkProviders (Throw Rejected) (Throw Rejected) (fun _ => Ok tt)
                       (Ok [mkMenuItem "h" "House Salad" "7.99" "Salads"]))) =
  searchText (mount (mkProviders (Throw Rejected) (Throw Rejected) (fun _ => Ok tt)
                       (Ok MENU_ITEMS))) /\
  selectedCategories
    (mount (mkProviders (Throw Rejected) (Throw Rejected) (fun _ => Ok tt)
              (Ok [mkMenuItem "h" "House Salad" "7.99" "Salads"]))) =
  selectedCategories
    (mount (mkProviders (Throw Rejected) (Throw Rejected) (fun _ => Ok tt)
              (Ok MENU_ITEMS))) /\
  filteredData
    (mount (mkProviders (Throw Rejected) (Throw Rejected) (fun _ => Ok tt)
              (Ok [mkMenuItem "h" "House Salad" "7.99" "Salads"]))) =
  [mkSection "Salads" [mkMenuItem "h" "House Salad" "7.99" "Salads"]] /\
  filteredData
    (mount (mkProviders (Throw Rejected) (Throw Rejected) (fun _ => Ok tt)
              (Ok [mkMenuItem "h" "House Salad" "7.99" "Salads"]))) <>
  filteredData
    (mount (mkProviders (Throw Rejected) (Throw Rejected) (fun _ => Ok tt)
              (Ok MENU_ITEMS))).
Proof.
  split; [vm_compute; reflexivity|]. split; [vm_compute; reflexivity|].
  split; [vm_compute; reflexivity|]. split; [vm_compute; reflexivity|].
  vm_compute. discriminate.
Qed.

(** C9, amended.  The filter does not use the loaded catalog: it reads the
    store again.  In every state the component reaches once the filter
    effect has run to completion, after mounting and after each change of
    the search text or the selection, and with every store read of the run
    returning the same outcome, the published view is [FilteredView] of that
    outcome, the search text and the selection; so two runs that agree on
    these three publish the same view, and the view is empty when the loaded
    catalog is.  Between a change and the completion of the effect the
    previous view stays published. *)
Theorem filteredData_settled (P1 P2 : Providers) (st1 st2 : AppState) :
  reachable P1 st1 -> reachable P2 st2 ->
  getMenuItems P1 = getMenuItems P2 ->
  searchText st1 = searchText st2 ->
  selectedCategories st1 = selectedCategories st2 ->
  filteredData st1 =
    FilteredView (getMenuItems P1) (searchText st1) (selectedCategories st1) /\
  filteredData st1 = filteredData st2 /\
  (data st1 = [] -> filteredData st1 = []) /\
  (forall text, filteredData (exec (setSearchText text) st1) = filteredData st1) /\
  (forall c, filteredData (exec (toggleCategory c) st1) = filteredData st1).
Proof.
  intros H1 H2 Hc Hs Hsel.
  apply reachable_view in H1 as [Hd H1]. apply reachable_view in H2 as [_ H2].
  split; [exact H1|]. split; [now rewrite H1, H2, Hc, Hs, Hsel|].
  split; [|split; reflexivity].
  intros Hnil. rewrite H1, (Hd Hnil). apply FilteredView_nil.
Qed.

Lemma filteredData_settled_witness :
  filteredData
    (step (mkProviders (Ok tt) (Throw Rejected) (fun _ => Ok tt) (Ok MENU_ITEMS))
       (mount (mkProviders (Ok tt) (Throw Rejected) (fun _ => Ok tt) (Ok MENU_ITEMS)))
       (ChangeText "sa")) =
  filteredData
    (step (mkProviders (Throw Rejected) (Ok []) (fun _ => Throw Rejected) (Ok MENU_ITEMS))
       (step (mkProviders (Throw Rejected) (Ok []) (fun _ => Throw Rejected) (Ok MENU_ITEMS))
          (mount (mkProviders (Throw Rejected) (Ok []) (fun _ => Throw Rejected)
                    (Ok MENU_ITEMS)))
          (ChangeText "s"))
       (ChangeText "sa")).
Proof.
  refine (proj1 (proj2 (filteredData_settled
           (mkProviders (Ok tt) (Throw Rejected) (fun _ => Ok tt) (Ok MENU_ITEMS))
           (mkProviders (Throw Rejected) (Ok []) (fun _ => Throw Rejected) (Ok MENU_ITEMS))
           _ _ _ _ _ _ _))).
  - apply reachable_step, reachable_mount.
  - apply reachable_step, reachable_step, reachable_mount.
  - reflexivity.
  - vm_compute; reflexivity.
  - vm_compute; reflexivity.
Defined.

(** ** Filter correctness *)

Lemma read_selected (sel : gmap string bool) (k : string) :
  inherited k = false ->
  (ToBoolean (read sel k) = true <-> sel !! k = Some true).
Proof.
  intros Hk. unfold read. destruct (sel !! k) as [[]|]; simpl.
  - tauto.
  - split; intros H; [discriminate | now inversion H].
  - rewrite Hk. simpl. split; discriminate.
Qed.

(** The items of the sections built from the filtered list. *)
Lemma filtered_sections (l : list MenuItem) (s : string) (sel : gmap string bool)
    (secs : list SectionData) (i : MenuItem) :
  getSectionListData (List.filter (keep s sel) l) = Ok secs ->
  (In i (flatten secs) <->
   In i l /\ titleContains (title i) s /\ sel !! category i = Some true).
Proof.
  intros H. rewrite (In_flatten_sections _ _ i H).
  apply getSectionListData_Ok in H as [Hinh _].
  rewrite existsb_inherited_false in Hinh.
  rewrite List.filter_In. unfold keep, categoryIsSelected.
  rewrite andb_true_iff, matchesSearch_titleContains. split.
  - intros [Hi [Hm Hsel]]. split; [assumption|]. split; [assumption|].
    apply read_selected; [|assumption]. apply Hinh.
    apply List.filter_In. split; [assumption|].
    unfold keep, categoryIsSelected.
    now rewrite (proj2 (matchesSearch_titleContains s i) Hm), Hsel.
  - intros [Hi [Hm Hsel]]. split; [assumption|]. split; [assumption|].
    unfold read. now rewrite Hsel.
Qed.

(** Whatever the stored catalog, an item of the published view matches the
    search text and has its category mapped to [true]: an item whose category
    is not a key of the selection never appears. *)
Lemma FilteredView_sound (catalog : JSResult (list MenuItem)) (s : string)
    (sel : gmap string bool) (i : MenuItem) :
  In i (flatten (FilteredView catalog s sel)) ->
  titleContains (title i) s /\ sel !! category i = Some true.
Proof.
  assert (Hfb : In i (flatten (fallbackView s sel)) ->
                titleContains (title i) s /\ sel !! category i = Some true).
  { intros H. now apply (filtered_sections _ _ _ _ i (fallback_returns s sel)) in H. }
  unfold FilteredView. destruct catalog as [allItems|e]; [|exact Hfb].
  destruct (getSectionListData (List.filter (keep s sel) allItems)) as [secs|e] eqn:E;
    [|exact Hfb].
  intros H. now apply (filtered_sections _ _ _ _ i E) in H.
Qed.

(** Filter correctness for catalogs without a category that names a member
    of [Object.prototype]. *)
Lemma FilteredView_complete (allItems : list MenuItem) (s : string)
    (sel : gmap string bool) (i : MenuItem) :
  (forall j, In j allItems -> inherited (category j) = false) ->
  (In i (flatten (FilteredView (Ok allItems) s sel)) <->
   In i allItems /\ titleContains (title i) s /\ sel !! category i = Some true).
Proof.
  intros Hno. unfold FilteredView.
  destruct (proj2 (getSectionListData_returns (List.filter (keep s sel) allItems)))
    as [secs E].
  - intros j Hj. apply List.filter_In in Hj as [Hj _]. now apply Hno.
  - rewrite E. now apply filtered_sections.
Qed.

(** C1.  A selected item that matches the search text is dropped from the
    published view when its category is "constructor": the filter keeps it,
    [getSectionListData] raises on it, and the [catch] block publishes the
    filtered bundled menu instead, here the empty list. *)
Theorem filterData_drops_match
    (ct : JSResult unit) (fd : JSResult (list MenuItem))
    (sv : list MenuItem -> JSResult unit) (st : AppState) :
  matchesSearch "pi" (mkMenuItem "1" "Pie" "3.00" "constructor") = true /\
  ({["constructor" := true]} : gmap string bool) !! "constructor" = Some true /\
  filteredData
    (exec (filterData
             (mkProviders ct fd sv (Ok [mkMenuItem "1" "Pie" "3.00" "constructor"]))
             "pi" {["constructor" := true]}) st) = [].
Proof.
  split; [reflexivity|]. split; [reflexivity|].
  unfold exec. rewrite filterData_spec. simpl. vm_compute. reflexivity.
Qed.

(** ** End-to-end scenarios *)

(** C7.  With the catalog Hummus (Appetizers), Greek Salad (Salads), Water
    (Beverages), the search text "sa" and every category selected, the
    published view is the single section Salads holding Greek Salad. *)
Theorem scenario_search_sa (id1 p1 id2 p2 id3 p3 : string)
    (ct : JSResult unit) (fd : JSResult (list MenuItem))
    (sv : list MenuItem -> JSResult unit) (st : AppState) :
  deriveInitial
    [mkMenuItem id1 "Hummus" p1 "Appetizers";
     mkMenuItem id2 "Greek Salad" p2 "Salads";
     mkMenuItem id3 "Water" p3 "Beverages"] =
    <["Appetizers" := true]> (<["Salads" := true]> (<["Beverages" := true]> ∅)) /\
  filteredData
    (exec (filterData
             (mkProviders ct fd sv
                (Ok [mkMenuItem id1 "Hummus" p1 "Appetizers";
                     mkMenuItem id2 "Greek Salad" p2 "Salads";
                     mkMenuItem id3 "Water" p3 "Beverages"]))
             "sa"
             (<["Appetizers" := true]>
                (<["Salads" := true]> (<["Beverages" := true]> ∅)))) st) =
    [mkSection "Salads" [mkMenuItem id2 "Greek Salad" p2 "Salads"]].
Proof.
  split; [vm_compute; reflexivity|].
  unfold exec. rewrite filterData_spec. simpl. vm_compute. reflexivity.
Qed.

(** C8.  With the same catalog, the empty search text and Appetizers
    deselected, the published view has no Appetizers section at all; it is
    the section Salads holding Greek Salad followed by the section Beverages
    holding Water. *)
Theorem scenario_deselect_appetizers (id1 p1 id2 p2 id3 p3 : string)
    (ct : JSResult unit) (fd : JSResult (list MenuItem))
    (sv : list MenuItem -> JSResult unit) (st : AppState) :
  filteredData
    (exec (filterData
             (mkProviders ct fd sv
                (Ok [mkMenuItem id1 "Hummus" p1 "Appetizers";
                     mkMenuItem id2 "Greek Salad" p2 "Salads";
                     mkMenuItem id3 "Water" p3 "Beverages"]))
             EmptyString
             (<["Appetizers" := false]>
                (<["Salads" := true]> (<["Beverages" := true]> ∅)))) st) =
    [mkSection "Salads" [mkMenuItem id2 "Greek Salad" p2 "Salads"];
     mkSection "Beverages" [mkMenuItem id3 "Water" p3 "Beverages"]] /\
  ~ In "Appetizers"
      (map sec_title
         (filteredData
            (exec (filterData
                     (mkProviders ct fd sv
                        (Ok [mkMenuItem id1 "Hummus" p1 "Appetizers";
                             mkMenuItem id2 "Greek Salad" p2 "Salads";
                             mkMenuItem id3 "Water" p3 "Beverages"]))
                     EmptyString
                     (<["Appetizers" := false]>
                        (<["Salads" := true]> (<["Beverages" := true]> ∅)))) st))).
Proof.
  assert (E : filteredData
    (exec (filterData
             (mkProviders ct fd sv
                (Ok [mkMenuItem id1 "Hummus" p1 "Appetizers";
                     mkMenuItem id2 "Greek Salad" p2 "Salads";
                     mkMenuItem id3 "Water" p3 "Beverages"]))
             EmptyString
             (<["Appetizers" := false]>
                (<["Salads" := true]> (<["Beverages" := true]> ∅)))) st) =
    [mkSection "Salads" [mkMenuItem id2 "Greek Salad" p2 "Salads"];
     mkSection "Beverages" [mkMenuItem id3 "Water" p3 "Beverages"]]).
  { unfold exec. rewrite filterData_spec. simpl. vm_compute. reflexivity. }
  split; [exact E|]. rewrite E. simpl. intros [H|[H|[]]]; discriminate.
Qed.

(** Any failure of the store during start-up ends in the bundled menu. *)
Lemma resolve_on_failure (P : Providers) (e : JSError) :
  createTable P = Throw e \/ getMenuItems P = Throw e -> resolve P = MENU_ITEMS.
Proof.
  unfold resolve. intros [H|H]; rewrite H; [reflexivity|].
  now destruct (createTable P).
Qed.

(** ** More on grouping *)

Lemma flat_grouped (l : list MenuItem) :
  concat (map snd (grouped l)) =
  concat (map (fun k => List.filter (in_category k) l)
            (first_occurrences (map category l))).
Proof. unfold grouped. now rewrite map_map. Qed.

Lemma concat_extract (G : string -> list MenuItem) (c : string) (ks : list string) :
  List.NoDup ks -> In c ks ->
  Permutation (concat (map G ks))
    (G c ++ concat (map G (List.filter (fun k => negb (String.eqb k c)) ks))).
Proof.
  induction ks as [|k r IH]; intros Hnd Hin; [contradiction|].
  inversion Hnd as [|? ? Hk Hr]; subst. simpl.
  destruct (String.eqb_spec k c) as [->|Hn]; simpl.
  - rewrite filter_all; [reflexivity|].
    intros k' Hk'. destruct (String.eqb_spec k' c) as [->|_];
      [contradiction | reflexivity].
  - destruct Hin as [E|Hin]; [contradiction|].
    rewrite (IH Hr Hin). apply Permutation_app_swap_app.
Qed.

Lemma flat_cons (x : MenuItem) (l : list MenuItem) :
  concat (map (fun k => List.filter (in_category k) (x :: l))
            (first_occurrences (map category (x :: l)))) =
  (x :: List.filter (in_category (category x)) l) ++
  concat (map (fun k => List.filter (in_category k) l)
            (List.filter (fun k => negb (String.eqb k (category x)))
               (first_occurrences (map category l)))).
Proof.
  cbn [map first_occurrences concat]. f_equal.
  - cbn [List.filter]. unfold in_category at 1. now rewrite String.eqb_refl.
  - f_equal. apply map_ext_in. intros k Hk. apply List.filter_In in Hk as [_ Hk].
    cbn [List.filter]. unfold in_category at 1.
    destruct (String.eqb_spec (category x) k) as [E|_]; [|reflexivity].
    subst k. now rewrite String.eqb_refl in Hk.
Qed.

(** The buckets hold the input items, each once. *)
Lemma grouped_perm (l : list MenuItem) :
  Permutation (concat (map snd (grouped l))) l.
Proof.
  rewrite flat_grouped. induction l as [|x l IH]; [reflexivity|].
  rewrite flat_cons. simpl. constructor.
  destruct (in_dec string_dec (category x) (first_occurrences (map category l)))
    as [Hin|Hnin].
  - rewrite <- (concat_extract (fun k => List.filter (in_category k) l)
                  (category x) _ (NoDup_first_occurrences _) Hin).
    exact IH.
  - rewrite (filter_none (in_category (category x)) l).
    + simpl. rewrite filter_all; [exact IH|].
      intros k Hk. destruct (String.eqb_spec k (category x)) as [->|_];
        [contradiction | reflexivity].
    + intros i Hi. unfold in_category.
      destruct (String.eqb_spec (category i) (category x)) as [E|_]; [|reflexivity].
      exfalso. apply Hnin. rewrite In_first_occurrences, <- E. now apply in_map.
Qed.

Lemma getSectionListData_Throw (l : list MenuItem) :
  getSectionListData l = Throw TypeError <->
  exists i, In i l /\ inherited (category i) = true.
Proof.
  rewrite getSectionListData_spec, <- existsb_exists.
  destruct (existsb _ l); split; try reflexivity; discriminate.
Qed.

Lemma getSectionListData_Throw_any (l : list MenuItem) (e : JSError) :
  getSectionListData l = Throw e -> getSectionListData l = Throw TypeError.
Proof.
  rewrite getSectionListData_spec. destruct (existsb _ l); [reflexivity | discriminate].
Qed.

(** X1.  [getSectionListData] raises a TypeError exactly when some item has
    a category that names a member of [Object.prototype], and returns a
    section list exactly when no item has. *)
Theorem grouping_raises_iff (l : list MenuItem) :
  (getSectionListData l = Throw TypeError <->
   exists i, In i l /\ inherited (category i) = true) /\
  ((exists secs, getSectionListData l = Ok secs) <->
   forall i, In i l -> inherited (category i) = false).
Proof.
  split; [apply getSectionListData_Throw | apply getSectionListData_returns].
Qed.

(** X2.  When grouping returns, the items of its sections, read section by
    section, are a permutation of the input: no item is lost and none is
    shown twice. *)
Theorem grouping_permutation (l : list MenuItem) (secs : list SectionData) :
  getSectionListData l = Ok secs -> Permutation (flatten secs) l.
Proof.
  intros H. apply getSectionListData_Ok in H as [_ ->].
  unfold flatten. rewrite sec_data_to_section.
  rewrite (concat_perm _ _ (Permutation_map snd (Object_entries_perm (grouped l)))).
  apply grouped_perm.
Qed.

Lemma grouping_permutation_witness :
  Permutation
    (flatten
       [mkSection "1" [mkMenuItem "c" "Pie" "3.00" "1"];
        mkSection "Bakery" [mkMenuItem "b" "Scone" "1.50" "Bakery";
                            mkMenuItem "d" "Bun" "1.00" "Bakery"]])
    [mkMenuItem "b" "Scone" "1.50" "Bakery"; mkMenuItem "c" "Pie" "3.00" "1";
     mkMenuItem "d" "Bun" "1.00" "Bakery"].
Proof.
  apply (grouping_permutation
           [mkMenuItem "b" "Scone" "1.50" "Bakery"; mkMenuItem "c" "Pie" "3.00" "1";
            mkMenuItem "d" "Bun" "1.00" "Bakery"]).
  reflexivity.
Defined.

Lemma sections_well_grouped (l : list MenuItem) :
  well_grouped (Object_entries (grouped l)).
Proof.
  eapply well_grouped_perm; [symmetry; apply Object_entries_perm|].
  apply well_grouped_grouped.
Qed.

(** X3.  When grouping returns, the section titles are pairwise distinct,
    there is one section per distinct category, no section is empty, every
    item sits under the title equal to its category, and the section list is
    empty only for the empty input. *)
Theorem grouping_sections (l : list MenuItem) (secs : list SectionData) :
  getSectionListData l = Ok secs ->
  List.NoDup (map sec_title secs) /\
  length secs = length (first_occurrences (map category l)) /\
  (forall s, In s secs ->
     sec_data s <> [] /\ forall i, In i (sec_data s) -> category i = sec_title s) /\
  (secs = [] <-> l = []).
Proof.
  intros H. pose proof (getSectionListData_Ok_nil l) as Hnil.
  pose proof H as H'. apply getSectionListData_Ok in H' as [_ ->].
  destruct (sections_well_grouped l) as [Hnd Hall].
  split; [|split; [|split]].
  - now rewrite sec_title_to_section.
  - rewrite length_map, (Permutation_length (Object_entries_perm _)).
    unfold grouped. now rewrite length_map.
  - intros s Hs. apply in_map_iff in Hs as [[k v] [<- Hkv]]. simpl.
    now apply Hall.
  - split.
    + intros E. apply Hnil. now rewrite H, E.
    + intros ->. reflexivity.
Qed.

Lemma grouping_sections_witness :
  List.NoDup
    (map sec_title
       [mkSection "1" [mkMenuItem "c" "Pie" "3.00" "1"];
        mkSection "Bakery" [mkMenuItem "b" "Scone" "1.50" "Bakery";
                            mkMenuItem "d" "Bun" "1.00" "Bakery"]]).
Proof.
  apply (grouping_sections
           [mkMenuItem "b" "Scone" "1.50" "Bakery"; mkMenuItem "c" "Pie" "3.00" "1";
            mkMenuItem "d" "Bun" "1.00" "Bakery"]).
  reflexivity.
Defined.

Lemma getSectionListData_idempotent_witness :
  getSectionListData
    (flatten
       [mkSection "1" [mkMenuItem "c" "Pie" "3.00" "1"];
        mkSection "Bakery" [mkMenuItem "b" "Scone" "1.50" "Bakery";
                            mkMenuItem "d" "Bun" "1.00" "Bakery"]]) =
  Ok [mkSection "1" [mkMenuItem "c" "Pie" "3.00" "1"];
      mkSection "Bakery" [mkMenuItem "b" "Scone" "1.50" "Bakery";
                          mkMenuItem "d" "Bun" "1.00" "Bakery"]].
Proof.
  apply (getSectionListData_idempotent
           [mkMenuItem "b" "Scone" "1.50" "Bakery"; mkMenuItem "c" "Pie" "3.00" "1";
            mkMenuItem "d" "Bun" "1.00" "Bakery"]).
  reflexivity.
Defined.

Lemma Object_entries_no_index (o : Buckets) :
  (forall k, In k (map fst o) -> is_index k = false) -> Object_entries o = o.
Proof.
  intros Hno. unfold Object_entries.
  assert (Hi : index_entries o = []).
  { induction o as [|[k v] r IH]; simpl; [reflexivity|].
    assert (Hk : is_index k = false) by (apply Hno; now left).
    unfold is_index in Hk. destruct (array_index k); [discriminate|].
    apply IH. intros k' Hk'. apply Hno. now right. }
  rewrite Hi. simpl. unfold string_entries. apply filter_all.
  intros [k v] Hin. rewrite Hno; [reflexivity|]. now apply (in_map fst) in Hin.
Qed.

(** X5.  Flattening a well-formed section list and grouping it gives the
    section list back: when the titles are pairwise distinct, are neither
    array-index strings nor names of [Object.prototype] members, and every
    section is non-empty and holds items of its own category only, then
    [getSectionListData (flatten secs)] returns [secs]. *)
Theorem regroup_sections (secs : list SectionData) :
  List.NoDup (map sec_title secs) ->
  (forall s, In s secs ->
     sec_data s <> [] /\ forall i, In i (sec_data s) -> category i = sec_title s) ->
  (forall s, In s secs ->
     is_index (sec_title s) = false /\ inherited (sec_title s) = false) ->
  getSectionListData (flatten secs) = Ok secs.
Proof.
  intros Hnd Hall Hkeys.
  set (o := map (fun s => (sec_title s, sec_data s)) secs).
  assert (Hsecs : map to_section o = secs).
  { unfold o. rewrite map_map. rewrite <- (map_id secs) at 2.
    apply map_ext. intros []. reflexivity. }
  assert (Hfst : map fst o = map sec_title secs).
  { unfold o. rewrite map_map. reflexivity. }
  assert (Hsnd : map snd o = map sec_data secs).
  { unfold o. rewrite map_map. reflexivity. }
  assert (Hwf : well_grouped o).
  { split; [now rewrite Hfst|]. intros k v Hin. unfold o in Hin.
    apply in_map_iff in Hin as [s [E Hs]]. injection E as <- <-. now apply Hall. }
  rewrite getSectionListData_spec. unfold flatten. rewrite <- Hsnd.
  assert (Hinh : existsb (fun i => inherited (category i)) (concat (map snd o)) = false).
  { apply existsb_inherited_false. intros i Hi.
    apply (well_grouped_items _ _ Hwf) in Hi. rewrite Hfst in Hi.
    apply in_map_iff in Hi as [s [E Hs]]. rewrite <- E. now apply Hkeys. }
  rewrite Hinh, (grouped_concat _ Hwf). rewrite Object_entries_no_index.
  - now rewrite Hsecs.
  - intros k Hk. rewrite Hfst in Hk. apply in_map_iff in Hk as [s [<- Hs]].
    now apply Hkeys.
Qed.

Lemma regroup_sections_witness :
  getSectionListData
    (flatten
       [mkSection "Drinks" [mkMenuItem "a" "Tea" "2.00" "Drinks"];
        mkSection "Bakery" [mkMenuItem "b" "Scone" "1.50" "Bakery";
                            mkMenuItem "d" "Bun" "1.00" "Bakery"]]) =
  Ok [mkSection "Drinks" [mkMenuItem "a" "Tea" "2.00" "Drinks"];
      mkSection "Bakery" [mkMenuItem "b" "Scone" "1.50" "Bakery";
                          mkMenuItem "d" "Bun" "1.00" "Bakery"]].
Proof.
  apply regroup_sections.
  - simpl. constructor; [intros [H|[]]; discriminate|].
    constructor; [intros []|constructor].
  - intros s [<-|[<-|[]]]; simpl; (split; [discriminate|]);
      intros i Hi; repeat destruct Hi as [<-|Hi]; try reflexivity; contradiction.
  - intros s [<-|[<-|[]]]; split; reflexivity.
Defined.

(** ** More on the selection *)

(** X6.  [uniqueCategories] lists every category of the items exactly once,
    in order of first occurrence. *)
Theorem uniqueCategories_spec (items : list MenuItem) :
  uniqueCategories items = first_occurrences (map category items) /\
  List.NoDup (uniqueCategories items) /\
  (forall c, In c (uniqueCategories items) <->
             exists i, In i items /\ category i = c).
Proof.
  unfold uniqueCategories. rewrite Set_of_first_occurrences.
  split; [reflexivity|]. split; [apply NoDup_first_occurrences|].
  intros c. rewrite In_first_occurrences, in_map_iff.
  split; intros [i [H1 H2]]; exists i; tauto.
Qed.

Lemma deriveInitial_complete_witness :
  deriveInitial MENU_ITEMS !! "Salads" = Some true /\
  size (deriveInitial MENU_ITEMS) = 3%nat.
Proof.
  assert (H : forall i, In i MENU_ITEMS -> category i <> "__proto__").
  { intros i Hi. repeat destruct Hi as [<-|Hi]; try discriminate. contradiction. }
  destruct (deriveInitial_complete MENU_ITEMS H) as [H1 [_ H3]].
  split; [apply H1; vm_compute; tauto | exact H3].
Defined.

Lemma read_toggle_other (state : gmap string bool) (a b : string) :
  a <> b -> read (toggle state a) b = read state b.
Proof. intros H. unfold read, toggle. now rewrite lookup_insert_ne. Qed.

(** X8.  Toggles of two different categories commute. *)
Theorem toggle_commute (state : gmap string bool) (a b : string) :
  a <> b -> toggle (toggle state a) b = toggle (toggle state b) a.
Proof.
  intros H. unfold toggle at 1 3.
  rewrite read_toggle_other by assumption.
  rewrite read_toggle_other by congruence.
  unfold toggle. now apply insert_insert_ne.
Qed.

Lemma toggle_commute_witness :
  toggle (toggle (deriveInitial MENU_ITEMS) "Salads") "Beverages" =
  toggle (toggle (deriveInitial MENU_ITEMS) "Beverages") "Salads".
Proof. apply toggle_commute. discriminate. Defined.

(** X9.  Toggling twice a category that is not a key does not restore the
    map: the key stays, mapped to [false] (to [true] when the category names
    a member of [Object.prototype]). *)
Theorem toggle_twice_absent (state : gmap string bool) (c : string) :
  state !! c = None ->
  toggle (toggle state c) c = <[c := inherited c]> state /\
  toggle (toggle state c) c <> state.
Proof.
  intros H.
  assert (E : toggle (toggle state c) c = <[c := inherited c]> state).
  { unfold toggle at 1. unfold read. rewrite (toggle_lookup_absent _ _ H).
    unfold toggle, read. rewrite H. rewrite insert_insert_eq.
    now destruct (inherited c). }
  split; [exact E|]. rewrite E. intros Heq.
  apply (f_equal (fun m => m !! c)) in Heq.
  rewrite lookup_insert_eq, H in Heq. discriminate.
Qed.

Lemma toggle_twice_absent_witness :
  toggle (toggle ∅ "Salads") "Salads" = <["Salads" := false]> ∅.
Proof.
  exact (proj1 (toggle_twice_absent ∅ "Salads" (lookup_empty _))).
Defined.

(** ** More on start-up *)

Lemma exec_initializeApp (P : Providers) (st : AppState) :
  exists secs,
    getSectionListData (resolve P) = Ok secs /\
    exec (initializeApp P) st = loaded st (resolve P) secs.
Proof.
  destruct (initializeApp_spec P st) as [secs [Hs Hi]].
  exists secs. split; [exact Hs|]. unfold exec. now rewrite Hi.
Qed.

Lemma resolve_no_inherited (P : Providers) (i : MenuItem) :
  In i (resolve P) -> inherited (category i) = false.
Proof.
  destruct (initializeApp_spec P initialState) as [secs [Hs _]].
  apply getSectionListData_returns. now exists secs.
Qed.

Lemma inherited_proto : inherited "__proto__" = true.
Proof. reflexivity. Qed.

(** The selection derived from the resolved catalog has an entry for each
    of its categories. *)
Lemma deriveInitial_resolve (P : Providers) (c : string) :
  deriveInitial (resolve P) !! c =
  if existsb (String.eqb c) (map category (resolve P)) then Some true else None.
Proof.
  rewrite deriveInitial_lookup.
  destruct (existsb (String.eqb c) (map category (resolve P))) eqn:E; [|reflexivity].
  apply existsb_eqb_In, in_map_iff in E as [i [<- Hi]].
  apply resolve_no_inherited in Hi.
  destruct (String.eqb_spec (category i) "__proto__") as [E|_]; [|reflexivity].
  rewrite E, inherited_proto in Hi. discriminate.
Qed.

Lemma Ok_sections_inj (l : list MenuItem) (a b : list SectionData) :
  getSectionListData l = Ok a -> getSectionListData l = Ok b -> a = b.
Proof. intros Ha Hb. rewrite Ha in Hb. now injection Hb. Qed.

(** X10.  [initializeApp] never raises, whatever the providers do: it ends
    with the busy flag cleared, leaves the search text alone, and publishes
    the sections of the resolved catalog both as [data] and as
    [filteredData]. *)
Theorem initializeApp_never_raises (P : Providers) (st : AppState) :
  exists st',
    initializeApp P st = (Ok tt, st') /\
    isLoading st' = false /\
    searchText st' = searchText st /\
    getSectionListData (resolve P) = Ok (data st') /\
    filteredData st' = data st'.
Proof.
  destruct (initializeApp_spec P st) as [secs [Hs Hi]].
  exists (loaded st (resolve P) secs). now repeat split.
Qed.

(** X11.  The outcome of the fetch and of the save never reaches the state
    directly: two start-ups that differ only in what [fetchData] and
    [saveMenuItems] return end in the same state. *)
Theorem initializeApp_ignores_fetch (ct : JSResult unit)
    (fd1 fd2 : JSResult (list MenuItem)) (sv1 sv2 : list MenuItem -> JSResult unit)
    (gm : JSResult (list MenuItem)) (st : AppState) :
  initializeApp (mkProviders ct fd1 sv1 gm) st =
  initializeApp (mkProviders ct fd2 sv2 gm) st.
Proof.
  destruct (initializeApp_spec (mkProviders ct fd1 sv1 gm) st) as [s1 [H1 ->]].
  destruct (initializeApp_spec (mkProviders ct fd2 sv2 gm) st) as [s2 [H2 ->]].
  assert (E : resolve (mkProviders ct fd1 sv1 gm) = resolve (mkProviders ct fd2 sv2 gm))
    by reflexivity.
  rewrite E in *. now rewrite (Ok_sections_inj _ _ _ H1 H2).
Qed.

(** X12.  When [createTable] or [getMenuItems] fails, or grouping the stored
    items raises, [initializeApp] still returns and publishes the bundled
    [MENU_ITEMS] with its three categories selected. *)
Theorem initializeApp_store_failure (P : Providers) (st : AppState) :
  (exists e, createTable P = Throw e) \/
  (exists e, getMenuItems P = Throw e) \/
  (exists items e, getMenuItems P = Ok items /\ getSectionListData items = Throw e) ->
  exists secs,
    getSectionListData MENU_ITEMS = Ok secs /\
    initializeApp P st = (Ok tt, loaded st MENU_ITEMS secs).
Proof.
  intros H.
  assert (Hr : resolve P = MENU_ITEMS).
  { unfold resolve. destruct H as [[e H]|[[e H]|[items [e [H1 H2]]]]].
    - now rewrite H.
    - rewrite H. now destruct (createTable P).
    - rewrite H1, H2. now destruct (createTable P). }
  destruct (initializeApp_spec P st) as [secs [Hs Hi]].
  rewrite Hr in Hs, Hi. exists secs. split; [exact Hs | exact Hi].
Qed.

Lemma initializeApp_store_failure_witness :
  exists secs,
    getSectionListData MENU_ITEMS = Ok secs /\
    initializeApp
      (mkProviders (Ok tt) (Throw Rejected) (fun _ => Ok tt)
         (Ok [mkMenuItem "1" "Pie" "3.00" "constructor"]))
      initialState = (Ok tt, loaded initialState MENU_ITEMS secs).
Proof.
  apply initializeApp_store_failure. right. right.
  exists [mkMenuItem "1" "Pie" "3.00" "constructor"], TypeError.
  split; reflexivity.
Defined.

Lemma uniqueCategories_sections (l : list MenuItem) (secs : list SectionData) :
  getSectionListData l = Ok secs ->
  Permutation (uniqueCategories l) (map sec_title secs).
Proof.
  intros H. apply getSectionListData_Ok in H as [_ ->].
  rewrite sec_title_to_section.
  rewrite (Permutation_map fst (Object_entries_perm (grouped l))).
  rewrite map_fst_grouped. unfold uniqueCategories.
  now rewrite Set_of_first_occurrences.
Qed.

(** X13.  After [initializeApp], for every outcome of the providers, the
    selection is complete: its keys are exactly the published categories,
    every value is [true], the categories are pairwise distinct and are the
    titles of the published sections up to order. *)
Theorem initializeApp_selection_complete (P : Providers) (st : AppState) :
  (forall c, In c (categories (exec (initializeApp P) st)) <->
             selectedCategories (exec (initializeApp P) st) !! c = Some true) /\
  (forall c b, selectedCategories (exec (initializeApp P) st) !! c = Some b ->
               b = true) /\
  List.NoDup (categories (exec (initializeApp P) st)) /\
  Permutation (categories (exec (initializeApp P) st))
    (map sec_title (data (exec (initializeApp P) st))).
Proof.
  destruct (exec_initializeApp P st) as [secs [Hs ->]]. simpl.
  assert (Hin : forall c, In c (uniqueCategories (resolve P)) <->
                          existsb (String.eqb c) (map category (resolve P)) = true).
  { intros c. unfold uniqueCategories.
    now rewrite Set_of_first_occurrences, In_first_occurrences, existsb_eqb_In. }
  split; [|split; [|split]].
  - intros c. rewrite Hin, deriveInitial_resolve.
    destruct (existsb _ _); split; congruence.
  - intros c b. rewrite deriveInitial_resolve.
    destruct (existsb _ _); congruence.
  - unfold uniqueCategories. rewrite Set_of_first_occurrences.
    apply NoDup_first_occurrences.
  - now apply uniqueCategories_sections.
Qed.

(** ** More on the transition system *)

Lemma filterEffect_frame (P : Providers) (st : AppState) :
  searchText (exec (filterEffect P) st) = searchText st /\
  data (exec (filterEffect P) st) = data st /\
  selectedCategories (exec (filterEffect P) st) = selectedCategories st /\
  categories (exec (filterEffect P) st) = categories st /\
  isLoading (exec (filterEffect P) st) = isLoading st.
Proof.
  rewrite filterEffect_spec.
  destruct (data st) eqn:E; simpl; rewrite ?E; now repeat split.
Qed.

Lemma mount_loaded (P : Providers) :
  exists secs,
    getSectionListData (resolve P) = Ok secs /\
    mount P = exec (filterEffect P) (loaded initialState (resolve P) secs).
Proof.
  destruct (exec_initializeApp P initialState) as [secs [Hs Hi]].
  exists secs. split; [exact Hs|].
  unfold mount. rewrite (filterEffect_spec P initialState). simpl. now rewrite Hi.
Qed.

Lemma step_frame (P : Providers) (st : AppState) (ev : Event) :
  data (step P st ev) = data st /\
  categories (step P st ev) = categories st /\
  isLoading (step P st ev) = isLoading st /\
  selectedCategories (step P st ev) =
    match ev with
    | ChangeText _ => selectedCategories st
    | PressCategory c => toggle (selectedCategories st) c
    end /\
  searchText (step P st ev) =
    match ev with
    | ChangeText text => text
    | PressCategory _ => searchText st
    end.
Proof.
  destruct ev as [text|c]; simpl.
  - destruct (String.eqb_spec text (searchText st)) as [->|_]; [now repeat split|].
    destruct (filterEffect_frame P (exec (setSearchText text) st))
      as [H1 [H2 [H3 [H4 H5]]]].
    rewrite H1, H2, H3, H4, H5. now repeat split.
  - destruct (filterEffect_frame P (exec (toggleCategory c) st))
      as [H1 [H2 [H3 [H4 H5]]]].
    rewrite H1, H2, H3, H4, H5. now repeat split.
Qed.

Lemma reachable_state (P : Providers) (st : AppState) :
  reachable P st ->
  isLoading st = false /\
  getSectionListData (resolve P) = Ok (data st) /\
  categories st = uniqueCategories (resolve P) /\
  (forall c, In c (categories st) -> is_Some (selectedCategories st !! c)).
Proof.
  induction 1 as [|st ev _ [H1 [H2 [H3 H4]]]].
  - destruct (mount_loaded P) as [secs [Hs ->]].
    destruct (filterEffect_frame P (loaded initialState (resolve P) secs))
      as [_ [F2 [F3 [F4 F5]]]].
    rewrite F2, F3, F4, F5. simpl. repeat split; [exact Hs|].
    intros c Hc. exists true. rewrite deriveInitial_resolve.
    unfold uniqueCategories in Hc.
    rewrite Set_of_first_occurrences, In_first_occurrences in Hc.
    now rewrite (proj2 (existsb_eqb_In _ _) Hc).
  - destruct (step_frame P st ev) as [F1 [F2 [F3 [F4 _]]]].
    rewrite F1, F2, F3, F4. repeat split; try assumption.
    intros c Hc. specialize (H4 c Hc). destruct ev as [text|c']; [exact H4|].
    destruct (String.eqb_spec c c') as [->|Hn].
    + unfold toggle. rewrite lookup_insert_eq. eauto.
    + now rewrite toggle_lookup_other.
Qed.

(** X14.  In every state the component reaches, the busy flag is off,
    [data] is the grouping of the catalog resolved at start-up (no event
    changes it), [categories] lists the distinct categories of that catalog
    without repetition, and every listed category is a key of the
    selection. *)
Theorem reachable_invariants (P : Providers) (st : AppState) :
  reachable P st ->
  isLoading st = false /\
  getSectionListData (resolve P) = Ok (data st) /\
  categories st = first_occurrences (map category (resolve P)) /\
  List.NoDup (categories st) /\
  (forall c, In c (categories st) -> c ∈ dom (selectedCategories st)).
Proof.
  intros H. apply reachable_state in H as [H1 [H2 [H3 H4]]].
  unfold uniqueCategories in H3. rewrite Set_of_first_occurrences in H3.
  repeat split; try assumption.
  - rewrite H3. apply NoDup_first_occurrences.
  - intros c Hc. apply elem_of_dom. now apply H4.
Qed.

Lemma reachable_invariants_witness :
  isLoading
    (step (mkProviders (Ok tt) (Throw Rejected) (fun _ => Ok tt) (Ok MENU_ITEMS))
       (mount (mkProviders (Ok tt) (Throw Rejected) (fun _ => Ok tt) (Ok MENU_ITEMS)))
       (PressCategory "Salads")) = false.
Proof.
  apply (reachable_invariants
           (mkProviders (Ok tt) (Throw Rejected) (fun _ => Ok tt) (Ok MENU_ITEMS))).
  apply reachable_step, reachable_mount.
Defined.

Lemma toggle_toggle_present (state : gmap string bool) (c : string) :
  is_Some (state !! c) -> toggle (toggle state c) c = state.
Proof.
  intros [b Hb].
  unfold toggle at 1. unfold read. rewrite (toggle_lookup_present _ _ _ Hb).
  unfold toggle, read. rewrite Hb. simpl.
  rewrite insert_insert_eq, negb_involutive. now apply insert_id.
Qed.

Lemma AppState_eq (a b : AppState) :
  searchText a = searchText b -> data a = data b ->
  filteredData a = filteredData b ->
  selectedCategories a = selectedCategories b ->
  categories a = categories b -> isLoading a = isLoading b -> a = b.
Proof. destruct a, b. simpl. now intros -> -> -> -> -> ->. Qed.

(** X15.  In every reachable state, pressing the button of a listed
    category twice brings the component back to exactly the state it was
    in: same selection, same published view. *)
Theorem press_twice_restores (P : Providers) (st : AppState) (c : string) :
  reachable P st -> In c (categories st) ->
  step P (step P st (PressCategory c)) (PressCategory c) = st.
Proof.
  intros Hr Hc.
  pose proof (reachable_step P _ (PressCategory c) Hr) as Hr1.
  pose proof (reachable_step P _ (PressCategory c) Hr1) as Hr2.
  destruct (reachable_state P st Hr) as [_ [_ [_ Hkeys]]].
  destruct (step_frame P st (PressCategory c)) as [A1 [A2 [A3 [A4 A5]]]].
  destruct (step_frame P (step P st (PressCategory c)) (PressCategory c))
    as [B1 [B2 [B3 [B4 B5]]]].
  assert (Hsel : selectedCategories
                   (step P (step P st (PressCategory c)) (PressCategory c)) =
                 selectedCategories st).
  { rewrite B4, A4. apply toggle_toggle_present. now apply Hkeys. }
  apply AppState_eq.
  - now rewrite B5, A5.
  - now rewrite B1, A1.
  - destruct (reachable_view P _ Hr2) as [_ ->].
    destruct (reachable_view P _ Hr) as [_ ->].
    now rewrite Hsel, B5, A5.
  - exact Hsel.
  - now rewrite B2, A2.
  - now rewrite B3, A3.
Qed.

Lemma press_twice_restores_witness :
  step (mkProviders (Ok tt) (Throw Rejected) (fun _ => Ok tt) (Ok MENU_ITEMS))
    (step (mkProviders (Ok tt) (Throw Rejected) (fun _ => Ok tt) (Ok MENU_ITEMS))
       (mount (mkProviders (Ok tt) (Throw Rejected) (fun _ => Ok tt) (Ok MENU_ITEMS)))
       (PressCategory "Salads"))
    (PressCategory "Salads") =
  mount (mkProviders (Ok tt) (Throw Rejected) (fun _ => Ok tt) (Ok MENU_ITEMS)).
Proof.
  apply press_twice_restores; [apply reachable_mount|].
  vm_compute. tauto.
Defined.

(** X16.  When the catalog loaded at start-up is empty, the published view
    is empty in every reachable state: the guard of the filter effect keeps
    it so whatever is typed or pressed. *)
Theorem empty_catalog_stays_empty (P : Providers) (st : AppState) :
  reachable P st -> data st = [] -> filteredData st = [].
Proof.
  intros Hr Hd. destruct (reachable_view P st Hr) as [Hg ->].
  rewrite (Hg Hd). apply FilteredView_nil.
Qed.

Lemma empty_catalog_stays_empty_witness :
  filteredData
    (step (mkProviders (Ok tt) (Ok MENU_ITEMS) (fun _ => Throw Rejected) (Ok []))
       (mount (mkProviders (Ok tt) (Ok MENU_ITEMS) (fun _ => Throw Rejected) (Ok [])))
       (ChangeText "sa")) = [].
Proof.
  apply (empty_catalog_stays_empty
           (mkProviders (Ok tt) (Ok MENU_ITEMS) (fun _ => Throw Rejected) (Ok []))).
  - apply reachable_step, reachable_mount.
  - vm_compute. reflexivity.
Defined.

Lemma keep_empty_selected (sel : gmap string bool) (i : MenuItem) :
  sel !! category i = Some true -> keep EmptyString sel i = true.
Proof.
  intros H. unfold keep, categoryIsSelected, read.
  now rewrite matchesSearch_empty, H.
Qed.

Lemma keep_inherited_absent (sel : gmap string bool) (i : MenuItem) :
  sel !! category i = None -> inherited (category i) = true ->
  keep EmptyString sel i = true.
Proof.
  intros H Hi. unfold keep, categoryIsSelected, read.
  now rewrite matchesSearch_empty, H, Hi.
Qed.

Lemma filter_MENU_ITEMS_all :
  List.filter (keep EmptyString (deriveInitial MENU_ITEMS)) MENU_ITEMS = MENU_ITEMS.
Proof. vm_compute. reflexivity. Qed.

Lemma Ok_inj {A : Type} (a b : A) : Ok a = Ok b -> a = b.
Proof. intros H. injection H as H. exact H. Qed.

Lemma fallbackView_all (secs : list SectionData) :
  getSectionListData MENU_ITEMS = Ok secs ->
  fallbackView EmptyString (deriveInitial MENU_ITEMS) = secs.
Proof.
  intros Hs. pose proof (fallback_returns EmptyString (deriveInitial MENU_ITEMS)) as H.
  rewrite filter_MENU_ITEMS_all, Hs in H. apply Ok_inj. symmetry. exact H.
Qed.

Lemma deriveInitial_MENU_ITEMS_inherited (k : string) :
  inherited k = true -> deriveInitial MENU_ITEMS !! k = None.
Proof.
  intros Hk. rewrite deriveInitial_lookup.
  destruct (existsb (String.eqb k) (map category MENU_ITEMS)) eqn:E; [|reflexivity].
  apply existsb_eqb_In, in_map_iff in E as [i [<- Hi]].
  rewrite (MENU_ITEMS_categories i Hi) in Hk. discriminate.
Qed.

(** With the empty search text and the selection derived at start-up, the
    filter shows the sections of the resolved catalog. *)
Lemma FilteredView_initial (P : Providers) (u : unit) (secs : list SectionData) :
  createTable P = Ok u ->
  getSectionListData (resolve P) = Ok secs ->
  FilteredView (getMenuItems P) EmptyString (deriveInitial (resolve P)) = secs.
Proof.
  intros Hct. unfold resolve. rewrite Hct. unfold FilteredView.
  destruct (getMenuItems P) as [items|e]; [|apply fallbackView_all].
  destruct (getSectionListData items) as [secs'|e] eqn:Hg.
  - intros Hs. rewrite filter_all; [now rewrite Hs|].
    intros i Hi. apply keep_empty_selected.
    assert (Hno : forall j, In j items -> inherited (category j) = false).
    { apply getSectionListData_returns. now exists secs'. }
    rewrite deriveInitial_lookup.
    rewrite (proj2 (existsb_eqb_In _ _) (in_map category _ _ Hi)).
    destruct (String.eqb_spec (category i) "__proto__") as [E|_]; [|reflexivity].
    specialize (Hno i Hi). rewrite E in Hno. discriminate.
  - intros Hs.
    assert (Hthrow : getSectionListData
                       (List.filter (keep EmptyString (deriveInitial MENU_ITEMS)) items) =
                     Throw TypeError).
    { apply getSectionListData_Throw_any, getSectionListData_Throw in Hg
        as [j [Hj Hinh]].
      apply getSectionListData_Throw. exists j. split; [|exact Hinh].
      apply List.filter_In. split; [exact Hj|].
      apply keep_inherited_absent; [|exact Hinh].
      now apply deriveInitial_MENU_ITEMS_inherited. }
    rewrite Hthrow. apply fallbackView_all. exact Hs.
Qed.

(** X17.  When [createTable] succeeds, the view published once the
    component has mounted is the whole loaded catalog: [filteredData] equals
    [data]. *)
Theorem mount_shows_catalog (P : Providers) :
  (exists u, createTable P = Ok u) -> filteredData (mount P) = data (mount P).
Proof.
  intros [u Hct]. destruct (mount_loaded P) as [secs [Hs ->]].
  rewrite filterEffect_spec. simpl.
  destruct secs as [|s0 secs0] eqn:E; simpl; [reflexivity|].
  now apply (FilteredView_initial P u).
Qed.

Lemma mount_shows_catalog_witness :
  filteredData
    (mount (mkProviders (Ok tt) (Throw Rejected) (fun _ => Ok tt)
              (Ok [mkMenuItem "1" "Pie" "3.00" "constructor"]))) =
  data
    (mount (mkProviders (Ok tt) (Throw Rejected) (fun _ => Ok tt)
              (Ok [mkMenuItem "1" "Pie" "3.00" "constructor"]))).
Proof. apply mount_shows_catalog. exists tt. reflexivity. Defined.

(** ** More on the filter *)

Lemma published_view (P : Providers) (s : string) (sel : gmap string bool)
    (st : AppState) :
  published P s sel st = FilteredView (getMenuItems P) s sel.
Proof. unfold published, exec. now rewrite filterData_spec. Qed.

Lemma N_of_ascii_inj (a b : ascii) : N_of_ascii a = N_of_ascii b -> a = b.
Proof.
  intros H. rewrite <- (ascii_N_embedding a), <- (ascii_N_embedding b). now rewrite H.
Qed.

Lemma lower_char_code (c : ascii) :
  N_of_ascii (lower_char c) =
  if is_upper c then (N_of_ascii c + 32)%N else N_of_ascii c.
Proof.
  unfold lower_char, is_upper.
  destruct ((65 <=? N_of_ascii c)%N && (N_of_ascii c <=? 90)%N) eqn:E; [|reflexivity].
  apply andb_true_iff in E as [_ E]. apply N.leb_le in E.
  apply N_ascii_embedding. lia.
Qed.

(** Lower-casing identifies exactly the characters that are the same letter
    up to case. *)
Lemma same_letter_lower (x y : ascii) :
  same_letter x y = true <-> lower_char x = lower_char y.
Proof.
  assert (Hcode : lower_char x = lower_char y <->
                  N_of_ascii (lower_char x) = N_of_ascii (lower_char y)).
  { split; [now intros -> | apply N_of_ascii_inj]. }
  rewrite Hcode, !lower_char_code. unfold same_letter.
  assert (Heq : Ascii.eqb x y = true <-> N_of_ascii x = N_of_ascii y).
  { rewrite Ascii.eqb_eq. split; [now intros -> | apply N_of_ascii_inj]. }
  assert (Hx : is_upper x = true <-> (65 <= N_of_ascii x <= 90)%N).
  { unfold is_upper. rewrite andb_true_iff, !N.leb_le. tauto. }
  assert (Hy : is_upper y = true <-> (65 <= N_of_ascii y <= 90)%N).
  { unfold is_upper. rewrite andb_true_iff, !N.leb_le. tauto. }
  rewrite !orb_true_iff, !andb_true_iff, Heq, !N.eqb_eq.
  destruct (is_upper x); destruct (is_upper y); split; intros H.
  all: repeat match goal with
       | H : _ \/ _ |- _ => destruct H
       | H : _ /\ _ |- _ => destruct H
       | H : false = true |- _ => discriminate H
       end.
  all: try lia.
  all: try (assert (65 <= N_of_ascii x <= 90)%N by (now apply Hx));
       try (assert (65 <= N_of_ascii y <= 90)%N by (now apply Hy)).
  all: try (assert (~ (65 <= N_of_ascii x <= 90)%N)
              by (intros Hc; apply Hx in Hc; discriminate));
       try (assert (~ (65 <= N_of_ascii y <= 90)%N)
              by (intros Hc; apply Hy in Hc; discriminate)).
  all: try lia.
  all: first [ left; left; lia | left; right; split; [reflexivity | lia]
             | right; split; [reflexivity | lia] ].
Qed.

Lemma equal_ignoring_case_lower (a b : string) :
  equal_ignoring_case a b = true <-> toLowerCase a = toLowerCase b.
Proof.
  revert b. induction a as [|x a IH]; intros [|y b]; simpl;
    try (split; [reflexivity | reflexivity]); try (split; discriminate).
  rewrite andb_true_iff, same_letter_lower, IH. split.
  - now intros [-> ->].
  - intros H. injection H as H1 H2. now split.
Qed.

Lemma containsIgnoringCase_titleContains (t s : string) :
  containsIgnoringCase t s <-> titleContains t s.
Proof.
  unfold containsIgnoringCase, titleContains.
  split; intros [pre [mid [post [H1 H2]]]]; exists pre, mid, post;
    (split; [exact H1 | now apply equal_ignoring_case_lower]).
Qed.

(** X18.  Whatever the store returns and whatever the search text, every
    item of the view that [filterData] publishes has its category mapped to
    [true] by the selection: an item whose category is not a key of the
    selection, or is mapped to [false], is never shown. *)
Theorem filterData_selected_only (P : Providers) (s : string)
    (sel : gmap string bool) (st : AppState) (i : MenuItem) :
  In i (flatten (published P s sel st)) -> sel !! category i = Some true.
Proof.
  rewrite published_view. intros H. now apply FilteredView_sound in H.
Qed.

Lemma filterData_selected_only_witness :
  (<["Salads" := true]> ∅ : gmap string bool) !! "Salads" = Some true.
Proof.
  apply (filterData_selected_only
           (mkProviders (Ok tt) (Throw Rejected) (fun _ => Ok tt) (Ok MENU_ITEMS))
           "sa" (<["Salads" := true]> ∅) initialState
           (mkMenuItem "5" "Greek Salad" "9.99" "Salads")).
  vm_compute. tauto.
Defined.

(** X19.  For an ASCII search text and a stored catalog with ASCII titles
    in which no category names a member of [Object.prototype], the
    published view holds exactly the items of the catalog in whose title the
    search text occurs as a case-insensitive substring and whose category
    the selection maps to [true]. *)
Theorem filterData_complete (P : Providers) (allItems : list MenuItem)
    (s : string) (sel : gmap string bool) (st : AppState) (i : MenuItem) :
  getMenuItems P = Ok allItems ->
  (forall j, In j allItems -> inherited (category j) = false) ->
  ascii_only s = true -> ascii_titles allItems ->
  (In i (flatten (published P s sel st)) <->
   In i allItems /\ containsIgnoringCase (title i) s /\
   sel !! category i = Some true).
Proof.
  intros Hg Hno _ _. rewrite published_view, Hg, containsIgnoringCase_titleContains.
  now apply FilteredView_complete.
Qed.

Lemma MENU_ITEMS_ascii : ascii_titles MENU_ITEMS.
Proof.
  intros j Hj. repeat destruct Hj as [<-|Hj]; try reflexivity. contradiction.
Qed.

Lemma filterData_complete_witness :
  In (mkMenuItem "5" "Greek Salad" "9.99" "Salads")
     (flatten
        (published
           (mkProviders (Ok tt) (Throw Rejected) (fun _ => Ok tt) (Ok MENU_ITEMS))
           "SA" (<["Salads" := true]> ∅) initialState)) <->
  In (mkMenuItem "5" "Greek Salad" "9.99" "Salads") MENU_ITEMS /\
  containsIgnoringCase "Greek Salad" "SA" /\
  (<["Salads" := true]> ∅ : gmap string bool) !! "Salads" = Some true.
Proof.
  apply (filterData_complete
           (mkProviders (Ok tt) (Throw Rejected) (fun _ => Ok tt) (Ok MENU_ITEMS))
           MENU_ITEMS "SA" (<["Salads" := true]> ∅) initialState
           (mkMenuItem "5" "Greek Salad" "9.99" "Salads")).
  - reflexivity.
  - apply MENU_ITEMS_categories.
  - reflexivity.
  - apply MENU_ITEMS_ascii.
Defined.

Lemma keep_ignoring_case (s1 s2 : string) (sel : gmap string bool) (i : MenuItem) :
  equal_ignoring_case s1 s2 = true -> keep s1 sel i = keep s2 sel i.
Proof.
  intros H. apply equal_ignoring_case_lower in H.
  unfold keep, matchesSearch. now rewrite H.
Qed.

(** X20.  The search ignores the letter case of the search text: two ASCII
    search texts of the same length whose characters are pairwise the same
    letter up to case publish the same view. *)
Theorem filterData_case_insensitive (P : Providers) (s1 s2 : string)
    (sel : gmap string bool) (st : AppState) :
  ascii_only s1 = true -> ascii_only s2 = true ->
  equal_ignoring_case s1 s2 = true ->
  published P s1 sel st = published P s2 sel st.
Proof.
  intros _ _ H. rewrite !published_view.
  assert (E : forall l, List.filter (keep s1 sel) l = List.filter (keep s2 sel) l).
  { intros l. apply List.filter_ext. intros i. now apply keep_ignoring_case. }
  unfold FilteredView, fallbackView.
  destruct (getMenuItems P) as [allItems|e]; now rewrite ?E.
Qed.

Lemma filterData_case_insensitive_witness :
  published (mkProviders (Ok tt) (Throw Rejected) (fun _ => Ok tt) (Ok MENU_ITEMS))
    "SaLaD" (deriveInitial MENU_ITEMS) initialState =
  published (mkProviders (Ok tt) (Throw Rejected) (fun _ => Ok tt) (Ok MENU_ITEMS))
    "salad" (deriveInitial MENU_ITEMS) initialState.
Proof. apply filterData_case_insensitive; reflexivity. Defined.

(** X21.  [filterData] never raises, not even when the store read fails or
    grouping raises, and it changes nothing but [filteredData]. *)
Theorem filterData_frame (P : Providers) (s : string) (sel : gmap string bool)
    (st : AppState) :
  fst (filterData P s sel st) = Ok tt /\
  searchText (exec (filterData P s sel) st) = searchText st /\
  data (exec (filterData P s sel) st) = data st /\
  selectedCategories (exec (filterData P s sel) st) = selectedCategories st /\
  categories (exec (filterData P s sel) st) = categories st /\
  isLoading (exec (filterData P s sel) st) = isLoading st.
Proof. unfold exec. rewrite filterData_spec. now repeat split. Qed.

(** X22.  When the store read fails and the search text is ASCII, the
    published view holds exactly the items of the bundled [MENU_ITEMS] in
    whose title the search text occurs as a case-insensitive substring and
    whose category the selection maps to [true]. *)
Theorem filterData_store_failure (P : Providers) (e : JSError) (s : string)
    (sel : gmap string bool) (st : AppState) (i : MenuItem) :
  getMenuItems P = Throw e -> ascii_only s = true ->
  (In i (flatten (published P s sel st)) <->
   In i MENU_ITEMS /\ containsIgnoringCase (title i) s /\
   sel !! category i = Some true).
Proof.
  intros Hg _. rewrite published_view, Hg, containsIgnoringCase_titleContains.
  simpl. apply (filtered_sections _ _ _ _ i (fallback_returns s sel)).
Qed.

Lemma filterData_store_failure_witness :
  In (mkMenuItem "10" "Coke" "2.99" "Beverages")
     (flatten
        (published
           (mkProviders (Ok tt) (Throw Rejected) (fun _ => Ok tt) (Throw Rejected))
           "COKE" (deriveInitial MENU_ITEMS) initialState)) <->
  In (mkMenuItem "10" "Coke" "2.99" "Beverages") MENU_ITEMS /\
  containsIgnoringCase "Coke" "COKE" /\
  deriveInitial MENU_ITEMS !! "Beverages" = Some true.
Proof.
  apply (filterData_store_failure
           (mkProviders (Ok tt) (Throw Rejected) (fun _ => Ok tt) (Throw Rejected))
           Rejected "COKE" (deriveInitial MENU_ITEMS) initialState
           (mkMenuItem "10" "Coke" "2.99" "Beverages")); reflexivity.
Defined.

Lemma FilteredView_sections (catalog : JSResult (list MenuItem)) (s : string)
    (sel : gmap string bool) :
  exists l, getSectionListData l = Ok (FilteredView catalog s sel).
Proof.
  unfold FilteredView. destruct catalog as [allItems|e].
  - destruct (getSectionListData (List.filter (keep s sel) allItems)) eqn:E.
    + eexists. exact E.
    + eexists. apply fallback_returns.
  - eexists. apply fallback_returns.
Qed.

Lemma flatten_nil_sections (l : list MenuItem) (secs : list SectionData) :
  getSectionListData l = Ok secs -> flatten secs = [] -> secs = [].
Proof.
  intros H Hf. destruct l as [|x l].
  - rewrite getSectionListData_nil in H. now injection H.
  - exfalso. pose proof (proj2 (In_flatten_sections _ _ x H)) as Hin.
    rewrite Hf in Hin. apply Hin. now left.
Qed.

(** X23.  When the selection maps no category to [true], the published
    view is the empty section list, whatever the store returns. *)
Theorem filterData_nothing_selected (P : Providers) (s : string)
    (sel : gmap string bool) (st : AppState) :
  (forall c, sel !! c <> Some true) -> published P s sel st = [].
Proof.
  intros Hnone. rewrite published_view.
  destruct (FilteredView_sections (getMenuItems P) s sel) as [l Hl].
  apply (flatten_nil_sections l _ Hl).
  destruct (flatten (FilteredView (getMenuItems P) s sel)) as [|i r] eqn:E;
    [reflexivity|].
  exfalso. apply (Hnone (category i)).
  apply (FilteredView_sound (getMenuItems P) s sel i). rewrite E. now left.
Qed.

Lemma filterData_nothing_selected_witness :
  published (mkProviders (Ok tt) (Throw Rejected) (fun _ => Ok tt) (Ok MENU_ITEMS))
    EmptyString (<["Salads" := false]> ∅) initialState = [].
Proof.
  apply filterData_nothing_selected. intros c.
  destruct (String.eqb_spec c "Salads") as [->|Hn].
  - rewrite lookup_insert_eq. discriminate.
  - rewrite lookup_insert_ne by congruence. rewrite lookup_empty. discriminate.
Defined.

(** ** More on the search *)

Lemma append_assoc (a b c : string) : (a +:+ b) +:+ c = a +:+ (b +:+ c).
Proof.
  induction a as [|x a IH]; [reflexivity|].
  rewrite !append_cons. now rewrite IH.
Qed.

Lemma length_append (a b : string) :
  String.length (a +:+ b) = (String.length a + String.length b)%nat.
Proof.
  induction a as [|x a IH]; [reflexivity|].
  rewrite append_cons. simpl. now rewrite IH.
Qed.

Lemma length_toLowerCase (s : string) :
  String.length (toLowerCase s) = String.length s.
Proof. induction s as [|c s IH]; simpl; [reflexivity | now rewrite IH]. Qed.

Lemma titleContains_trans (t s2 s : string) :
  titleContains t s2 -> titleContains s2 s -> titleContains t s.
Proof.
  intros [pre [mid [post [Ht Hm]]]] [a [m [b [Hs2 Hs]]]].
  rewrite Hs2, !toLowerCase_app, Hs in Hm.
  apply toLowerCase_split in Hm as [ma [m' [-> [Ha Hm']]]].
  apply toLowerCase_split in Hm' as [ms [mb [-> [Hms Hb]]]].
  exists (pre +:+ ma), ms, (mb +:+ post). split; [|exact Hms].
  rewrite Ht. now rewrite !append_assoc.
Qed.

(** X24.  For an ASCII title and an ASCII search text, the test of the
    filter callback, [title.toLowerCase().includes(searchText.toLowerCase())],
    holds exactly when the search text occurs in the title as a
    case-insensitive substring: some substring of the title has the length
    of the search text and the same letters up to case. *)
Theorem matchesSearch_correct (searchText : string) (item : MenuItem) :
  ascii_only (title item) = true -> ascii_only searchText = true ->
  (matchesSearch searchText item = true <->
   containsIgnoringCase (title item) searchText).
Proof.
  intros _ _. rewrite containsIgnoringCase_titleContains.
  apply matchesSearch_titleContains.
Qed.

Lemma matchesSearch_correct_witness :
  matchesSearch "SALAD" (mkMenuItem "5" "Greek Salad" "9.99" "Salads") = true <->
  containsIgnoringCase "Greek Salad" "SALAD".
Proof.
  apply (matchesSearch_correct "SALAD"
           (mkMenuItem "5" "Greek Salad" "9.99" "Salads")); reflexivity.
Defined.

(** X25.  An ASCII search text longer than an ASCII title never matches
    it. *)
Theorem matchesSearch_too_long (searchText : string) (item : MenuItem) :
  ascii_only (title item) = true -> ascii_only searchText = true ->
  (String.length (title item) < String.length searchText)%nat ->
  matchesSearch searchText item = false.
Proof.
  intros _ _ Hlen. destruct (matchesSearch searchText item) eqn:E; [|reflexivity].
  unfold matchesSearch in E. apply includes_substring in E as [pre [post E]].
  apply (f_equal String.length) in E.
  rewrite !length_append, !length_toLowerCase in E. lia.
Qed.

Lemma matchesSearch_too_long_witness :
  matchesSearch "waterfall" (mkMenuItem "9" "Water" "1.99" "Beverages") = false.
Proof. apply matchesSearch_too_long; [reflexivity | reflexivity | simpl; lia]. Defined.

(** X26.  Typing more never shows more, whatever the letter case: for ASCII
    search texts and a stored catalog with ASCII titles in which no category
    names a member of [Object.prototype], when [s] occurs in [s2] as a
    case-insensitive substring, every item shown for [s2] is also shown for
    [s]. *)
Theorem filterData_narrowing (P : Providers) (allItems : list MenuItem)
    (s2 s : string) (sel : gmap string bool) (st : AppState) (i : MenuItem) :
  getMenuItems P = Ok allItems ->
  (forall j, In j allItems -> inherited (category j) = false) ->
  ascii_titles allItems -> ascii_only s2 = true -> ascii_only s = true ->
  containsIgnoringCase s2 s ->
  In i (flatten (published P s2 sel st)) ->
  In i (flatten (published P s sel st)).
Proof.
  intros Hg Hno _ _ _ Hpart. rewrite !published_view, Hg.
  rewrite !(FilteredView_complete allItems _ sel i Hno).
  intros [Hi [Ht Hsel]]. split; [exact Hi|]. split; [|exact Hsel].
  apply (titleContains_trans _ s2); [exact Ht|].
  now apply containsIgnoringCase_titleContains.
Qed.

Lemma filterData_narrowing_witness :
  In (mkMenuItem "5" "Greek Salad" "9.99" "Salads")
     (flatten
        (published
           (mkProviders (Ok tt) (Throw Rejected) (fun _ => Ok tt) (Ok MENU_ITEMS))
           "sa" (deriveInitial MENU_ITEMS) initialState)).
Proof.
  apply (filterData_narrowing
           (mkProviders (Ok tt) (Throw Rejected) (fun _ => Ok tt) (Ok MENU_ITEMS))
           MENU_ITEMS "K SALAD" "sa" (deriveInitial MENU_ITEMS) initialState).
  - reflexivity.
  - apply MENU_ITEMS_categories.
  - apply MENU_ITEMS_ascii.
  - reflexivity.
  - reflexivity.
  - exists "K ", "SA", "LAD". split; reflexivity.
  - vm_compute. tauto.
Defined.

(** ** The screen *)

Lemma read_present (sel : gmap string bool) (c : string) (b : bool) :
  sel !! c = Some b -> ToBoolean (read sel c) = b.
Proof. intros H. unfold read. now rewrite H. Qed.

(** X27.  In every reachable state the screen shows the menu, never the
    activity indicator: the search bar holds the search text, there is one
    button per listed category with pairwise distinct keys, a button (and
    its text) carries the selected style exactly when the selection maps
    its category to [true], pressing it raises the toggle of its own
    category, and the list shows one section per published section. *)
Theorem render_reachable (P : Providers) (st : AppState) :
  reachable P st ->
  exists buttons sections,
    render st = MenuScreen (searchText st) buttons sections /\
    map button_key buttons = categories st /\
    List.NoDup (map button_key buttons) /\
    (forall b, In b buttons ->
       selectedCategories st !! button_key b = Some (button_selected b) /\
       text_selected b = button_selected b /\
       button_label b = button_key b /\
       onPress b = PressCategory (button_key b)) /\
    map view_header sections = map sec_title (filteredData st).
Proof.
  intros Hr. destruct (reachable_state P st Hr) as [Hl [_ [Hc Hk]]].
  exists (map (categoryButton (selectedCategories st)) (categories st)),
         (map sectionView (filteredData st)).
  assert (Hkeys : map button_key
                    (map (categoryButton (selectedCategories st)) (categories st)) =
                  categories st).
  { rewrite map_map. simpl. apply map_id. }
  split; [unfold render; now rewrite Hl|]. split; [exact Hkeys|].
  split; [|split].
  - rewrite Hkeys, Hc. unfold uniqueCategories.
    rewrite Set_of_first_occurrences. apply NoDup_first_occurrences.
  - intros b Hb. apply in_map_iff in Hb as [c [<- Hin]]. simpl.
    destruct (Hk c Hin) as [v Hv]. rewrite (read_present _ _ _ Hv).
    now repeat split.
  - rewrite map_map. reflexivity.
Qed.

Lemma render_reachable_witness :
  exists buttons sections,
    render (mount (mkProviders (Ok tt) (Throw Rejected) (fun _ => Ok tt)
                     (Ok MENU_ITEMS))) =
    MenuScreen EmptyString buttons sections /\
    map button_key buttons = ["Appetizers"; "Salads"; "Beverages"].
Proof.
  destruct (render_reachable
              (mkProviders (Ok tt) (Throw Rejected) (fun _ => Ok tt) (Ok MENU_ITEMS))
              _ (reachable_mount _)) as [buttons [sections [H1 [H2 _]]]].
  exists buttons, sections. split; [exact H1 | exact H2].
Defined.

(** X28.  In every reachable state, pressing the button of a listed
    category flips the selected style of that button and leaves every other
    button, the search text and the list of categories as they were. *)
Theorem press_flips_one_button (P : Providers) (st : AppState) (c : string) :
  reachable P st -> In c (categories st) ->
  categories (step P st (PressCategory c)) = categories st /\
  searchText (step P st (PressCategory c)) = searchText st /\
  forall k, In k (categories st) ->
    button_selected
      (categoryButton (selectedCategories (step P st (PressCategory c))) k) =
    if String.eqb k c
    then negb (button_selected (categoryButton (selectedCategories st) k))
    else button_selected (categoryButton (selectedCategories st) k).
Proof.
  intros Hr Hc. destruct (reachable_state P st Hr) as [_ [_ [_ Hk]]].
  destruct (step_frame P st (PressCategory c)) as [_ [F2 [_ [F4 F5]]]].
  split; [exact F2|]. split; [exact F5|].
  intros k Hin. rewrite F4. simpl.
  destruct (String.eqb_spec k c) as [->|Hn].
  - destruct (Hk c Hc) as [v Hv].
    rewrite (read_present _ _ _ (toggle_lookup_present _ _ _ Hv)).
    now rewrite (read_present _ _ _ Hv).
  - now rewrite read_toggle_other by congruence.
Qed.

Lemma press_flips_one_button_witness :
  categories
    (step (mkProviders (Ok tt) (Throw Rejected) (fun _ => Ok tt) (Ok MENU_ITEMS))
       (mount (mkProviders (Ok tt) (Throw Rejected) (fun _ => Ok tt) (Ok MENU_ITEMS)))
       (PressCategory "Salads")) =
  categories
    (mount (mkProviders (Ok tt) (Throw Rejected) (fun _ => Ok tt) (Ok MENU_ITEMS))).
Proof.
  apply press_flips_one_button; [apply reachable_mount|].
  vm_compute. tauto.
Defined.
